(** * feathersjs-couchbase: the CRUD service of lib/service/couchbase.service.js

    A shallow embedding of the [Service] class and the properties of its
    methods [find], [get], [create], [update], [patch] and [remove].

    JavaScript data is embedded as the inductive [value]; objects are finite
    maps from property names to values.  A promise is represented by the way
    it settles ([outcome]).  The store client handed to the constructor
    ([opts.connection]) is opaque to the service: it is a record of
    state-passing functions ([Bucket]) over which every general theorem is
    quantified; [Mem] is one concrete in-memory client used to run the methods
    on concrete inputs. *)

From stdpp Require Import gmap strings list fin_maps pretty.
From Stdlib Require Import ZArith.

Set Warnings "-register-all".

(** ** JavaScript values

    The fragment of JavaScript data the service handles: [undefined], [null],
    booleans, integral numbers, strings, arrays and plain objects.  Property
    names are assumed not to shadow members of [Object.prototype]; [NaN],
    fractions, integers that a double does not hold exactly or prints in
    exponent form (beyond 2^53), strings with characters outside ASCII, and
    property reads of [length] or of an index on arrays and strings are
    outside the fragment. *)

Inductive value : Type :=
| VUndefined
| VNull
| VBool (b : bool)
| VNum (n : Z)
| VStr (s : string)
| VArr (xs : list value)
| VObj (o : gmap string value).

(** What a promise rejects with, or a statement throws.  [BadRequest] and
    [NotFound] are the two classes taken from [@feathersjs/errors];
    [TypeError] is raised by the runtime, [PlainError] is ramda's
    [new Error(msg)], and [Thrown v] is any value that comes from outside the
    service (the store client's [err], an exception of the query builder). *)
Inductive error : Type :=
| BadRequest (msg : string)
| NotFound (msg : string)
| TypeError (msg : string)
| PlainError (msg : string)
| Thrown (v : value).

(** The result of evaluating an expression: a value, an exception, or a
    behaviour outside the modelled fragment (wrapper objects of primitives,
    named properties stored on arrays, comparisons that need string-to-number
    conversion). *)
Inductive result (A : Type) : Type :=
| Ok (a : A)
| Throws (e : error)
| OutOfFragment.
Arguments Ok {A} a.
Arguments Throws {A} e.
Arguments OutOfFragment {A}.

(** How the promise returned by a method settles.  [Pending] is a promise
    that is never resolved nor rejected. *)
Inductive outcome : Type :=
| Resolved (v : value)
| Rejected (e : error)
| Pending
| Unmodelled.

(** [v == null] *)
Definition is_nullish (v : value) : bool :=
  match v with
  | VUndefined | VNull => true
  | _ => false
  end.

(** ToBoolean, as used by [if (v)], [!v] and [a || b]. *)
Definition truthy (v : value) : bool :=
  match v with
  | VUndefined | VNull => false
  | VBool b => b
  | VNum n => negb (n =? 0)%Z
  | VStr s => negb (String.eqb s "")
  | VArr _ | VObj _ => true
  end.

(** [a || b] *)
Definition js_or (a b : value) : value := if truthy a then a else b.

(** A parameter declared with the default [null], as in [f(x = null)]: an
    argument that is missing or [undefined] is replaced by [null]. *)
Definition or_null (v : value) : value :=
  match v with
  | VUndefined => VNull
  | _ => v
  end.

(** [a === b] on primitives.  Two arrays or objects are strictly equal only
    when they are the same reference, which a structural value cannot tell;
    the comparisons the service makes have a primitive constant on one side. *)
Definition strict_eq (a b : value) : bool :=
  match a, b with
  | VUndefined, VUndefined => true
  | VNull, VNull => true
  | VBool x, VBool y => Bool.eqb x y
  | VNum x, VNum y => (x =? y)%Z
  | VStr x, VStr y => String.eqb x y
  | _, _ => false
  end.

(** [v.k] for a [v] that is not [null] or [undefined] (the callers check
    that first and throw otherwise). *)
Definition get_prop (v : value) (k : string) : value :=
  match v with
  | VObj o => default VUndefined (o !! k)
  | _ => VUndefined
  end.

(** [v.k], throwing on [null] and [undefined]. *)
Definition read_prop (v : value) (k : string) : result value :=
  if is_nullish v
  then Throws (TypeError ("Cannot read property '" +:+ k +:+ "'"))
  else Ok (get_prop v k).

(** [v.k = x] in strict mode: a [TypeError] on [null], [undefined] and on
    primitives. *)
Definition set_prop (v : value) (k : string) (x : value) : result value :=
  match v with
  | VObj o => Ok (VObj (<[k := x]> o))
  | VArr _ => OutOfFragment
  | _ => Throws (TypeError ("Cannot create property '" +:+ k +:+ "'"))
  end.

(** [k in v]: a [TypeError] when [v] is not an object. *)
Definition has_prop (k : string) (v : value) : result bool :=
  match v with
  | VObj o => Ok (bool_decide (is_Some (o !! k)))
  | VArr _ => OutOfFragment
  | _ => Throws (TypeError ("Cannot use 'in' operator to search for '" +:+ k +:+ "'"))
  end.

(** [delete v.k] on an object. *)
Definition delete_prop (v : value) (k : string) : value :=
  match v with
  | VObj o => VObj (delete k o)
  | _ => v
  end.

(** The own enumerable properties of a value, as [for ... in] with
    [hasOwnProperty] and [Object.assign] see them: the fields of an object,
    the indices of an array or of a string, nothing for the other
    primitives. *)
Definition indexed (xs : list value) : gmap string value :=
  list_to_map (imap (λ (i : nat) x, (pretty i, x)) xs).

(** The characters of a string, one per byte: for ASCII text these are the
    UTF-16 units by which JavaScript indexes a string. *)
Fixpoint chars (s : string) : list value :=
  match s with
  | EmptyString => []
  | String c s' => VStr (String c EmptyString) :: chars s'
  end.

Definition own_enumerable (v : value) : gmap string value :=
  match v with
  | VObj o => o
  | VArr xs => indexed xs
  | VStr s => indexed (chars s)
  | _ => ∅
  end.

(** [Object.assign(target, source)]: the own enumerable properties of
    [source] are written over [target]; a [null] or [undefined] source is
    skipped.  [m1 ∪ m2] keeps the binding of [m1] where both have one. *)
Definition object_assign (target source : value) : result value :=
  match target with
  | VObj t => Ok (VObj (own_enumerable source ∪ t))
  | VUndefined | VNull => Throws (TypeError "Cannot convert undefined or null to object")
  | _ => OutOfFragment
  end.

(** ToString, and [Array.prototype.join], which prints [null] and
    [undefined] elements as the empty string.  A number is printed in
    decimal, as JavaScript prints an integer up to 2^53; beyond that
    JavaScript rounds, and from 1e21 on it prints an exponent, which the
    decimal printing here does not follow. *)
Fixpoint to_string (v : value) : string :=
  match v with
  | VUndefined => "undefined"
  | VNull => "null"
  | VBool true => "true"
  | VBool false => "false"
  | VNum n => pretty n
  | VStr s => s
  | VArr xs =>
      String.concat ","
        (List.map (λ x, match x with
                        | VUndefined | VNull => ""
                        | _ => to_string x
                        end) xs)
  | VObj _ => "[object Object]"
  end.

Definition join_element (v : value) : string :=
  if is_nullish v then "" else to_string v.

Definition array_join (sep : string) (xs : list value) : string :=
  String.concat sep (List.map join_element xs).

(** ToNumber on the primitives that need no parsing; [None] is [NaN]. *)
Definition to_number (v : value) : result (option Z) :=
  match v with
  | VUndefined => Ok None
  | VNull => Ok (Some 0%Z)
  | VBool b => Ok (Some (if b then 1 else 0)%Z)
  | VNum n => Ok (Some n)
  | _ => OutOfFragment
  end.

(** [a < b]; a comparison with [NaN] is false. *)
Definition js_lt (a b : value) : result bool :=
  match to_number a, to_number b with
  | Ok (Some x), Ok (Some y) => Ok (x <? y)%Z
  | Ok _, Ok _ => Ok false
  | Throws e, _ | _, Throws e => Throws e
  | _, _ => OutOfFragment
  end.

(** [a > b] *)
Definition js_gt (a b : value) : result bool := js_lt b a.

(** ramda 0.25, [R.clamp(min, max, value)]:
    [if (min > max) throw new Error(...);
     return value < min ? min : value > max ? max : value]. *)
Definition R_clamp (min max v : value) : result value :=
  match js_gt min max with
  | Ok true =>
      Throws (PlainError "min must not be greater than max in clamp(min, max, value)")
  | Ok false =>
      match js_lt v min with
      | Ok true => Ok min
      | Ok false =>
          match js_gt v max with
          | Ok true => Ok max
          | Ok false => Ok v
          | Throws e => Throws e
          | OutOfFragment => OutOfFragment
          end
      | Throws e => Throws e
      | OutOfFragment => OutOfFragment
      end
  | Throws e => Throws e
  | OutOfFragment => OutOfFragment
  end.

(** [~xs.indexOf(k)] for a string [k]: some element is strictly equal to it. *)
Definition index_of_found (xs : list value) (k : string) : bool :=
  existsb (λ x, strict_eq x (VStr k)) xs.

(** ** Configuration and collaborators *)

(** The constructor's [opts].  [bucket], [connection] and [name] are
    required (the constructor throws without them); the connection is the
    [Bucket] below. *)
Record Options : Type := {
  opt_bucket : string;
  opt_name : string;
  opt_id : option string;
  opt_paginate : value;
  opt_separator : option string
}.

(** The fields of [this]. *)
Record Service : Type := {
  this_opts : Options;
  this_id : string;
  this_paginate : value;
  this_separator : string
}.

(** [s || d] for an optional string. *)
Definition or_string (s : option string) (d : string) : string :=
  match s with
  | Some x => if String.eqb x "" then d else x
  | None => d
  end.

Definition constructor (opts : Options) : Service :=
  {| this_opts := opts;
     this_id := or_string (opt_id opts) "uuid";
     this_paginate := js_or (opt_paginate opts) (VObj ∅);
     this_separator := or_string (opt_separator opts) "::" |}.

(** An optional string among the constructor's options, as [v || d] reads
    it: nothing when [v] is falsy.  A truthy value that is not a string is
    outside the fragment. *)
Definition string_option (v : value) : result (option string) :=
  if truthy v then
    match v with
    | VStr x => Ok (Some x)
    | _ => OutOfFragment
    end
  else Ok None.

(** [new Service(opts)] on the [opts] value the caller passes, lines 22-38:
    [this.opts = opts || {}]; the [couchbase] package is filled in when
    [opts] has none; the constructor throws when [bucket], [connection] or
    [name] is missing, in that order; then it takes [id], [paginate] and
    [separator] from [opts], or their defaults.  [couchbase] is what
    [require('couchbase')] gives.  Bucket and collection names that are not
    strings are outside the fragment. *)
Definition new_Service (couchbase opts : value) : result Service :=
  let this_opts := js_or opts (VObj ∅) in
  match (if is_nullish (get_prop this_opts "couchbase")
         then set_prop this_opts "couchbase" couchbase
         else Ok this_opts) with
  | Ok this_opts =>
      if is_nullish (get_prop this_opts "bucket")
      then Throws (PlainError "Must pass bucket name")
      else if is_nullish (get_prop this_opts "connection")
      then Throws (PlainError "Must pass bucket connection")
      else if is_nullish (get_prop this_opts "name")
      then Throws (PlainError "Name of service must be specified")
      else
        match get_prop this_opts "bucket", get_prop this_opts "name",
              string_option (get_prop opts "id"),
              string_option (get_prop opts "separator") with
        | VStr b, VStr n, Ok i, Ok sep =>
            Ok (constructor {| opt_bucket := b;
                               opt_name := n;
                               opt_id := i;
                               opt_paginate := get_prop opts "paginate";
                               opt_separator := sep |})
        | _, _, _, _ => OutOfFragment
        end
  | Throws e => Throws e
  | OutOfFragment => OutOfFragment
  end.

(** The consistency settings of the store's query object. *)
Inductive Consistency : Type := NOT_BOUNDED | REQUEST_PLUS | STATEMENT_PLUS.

(** The object built by [couchbase.N1qlQuery.fromString(str)] and configured
    by [_buildN1QL]. *)
Record N1qlQuery : Type := {
  n1ql_str : value;
  n1ql_consistency : option Consistency;
  n1ql_readonly : bool
}.

(** What the service imports: [uuid/v4] (the n-th identifier it hands out),
    the [keyNotFound] code of [couchbase.errors], and from [../querybuilder]
    the three [QueryConsistency] constants and [QueryBuilder.interpret],
    which compiles a query for a bucket name into a statement and its bound
    values, or throws.  [interpret] is taken not to modify the query. *)
Record Externals : Type := {
  uuid : nat → string;
  keyNotFound : value;
  QC_NOT_BOUNDED : value;
  QC_REQUEST_PLUS : value;
  QC_STATEMENT_PLUS : value;
  interpret : string → value → result (value * value)
}.

(** The store client, taken to be connected: [schema()] resolves with it.
    [get], [insert], [replace] and [query] take a
    node-style callback, which the client is taken to invoke exactly once:
    the functions return the callback's arguments, [(err, result)] or
    [(err, results, queryData)].  [remove] is called by the service without
    a callback, so what counts is what the call itself returns or throws (a
    returned promise is followed). *)
Record Bucket (St : Type) : Type := {
  bucket_get : string → St → (value * value) * St;
  bucket_insert : string → value → St → (value * value) * St;
  bucket_replace : string → value → St → (value * value) * St;
  bucket_remove : string → St → outcome * St;
  bucket_query : N1qlQuery → value → St → (value * value * value) * St
}.
Arguments bucket_get {St}.
Arguments bucket_insert {St}.
Arguments bucket_replace {St}.
Arguments bucket_remove {St}.
Arguments bucket_query {St}.

(** The requests the service sends to the store, in order. *)
Inductive Call : Type :=
| CGet (key : string)
| CInsert (key : string) (doc : value)
| CReplace (key : string) (doc : value)
| CRemove (key : string)
| CQuery (q : N1qlQuery) (values : value).

(** The state a method runs in: the store, the number of identifiers drawn
    from [uuid/v4], and the log of requests sent. *)
Record World (St : Type) : Type := mkWorld {
  store : St;
  drawn : nat;
  calls : list Call
}.
Arguments mkWorld {St}.
Arguments store {St}.
Arguments drawn {St}.
Arguments calls {St}.

Definition M (St A : Type) : Type := World St → A * World St.

#[global] Instance M_ret {St} : MRet (M St) := λ A a w, (a, w).
#[global] Instance M_bind {St} : MBind (M St) :=
  λ A B f m w, let '(a, w') := m w in f a w'.

(** ** Vocabulary of the properties *)

(** The document a request writes into the store. *)
Definition written_doc (c : Call) : option value :=
  match c with
  | CInsert _ doc | CReplace _ doc => Some doc
  | _ => None
  end.

(** A request respects the discriminator [nm]: the document it writes, if
    it writes one, has [_type] equal to [nm]. *)
Definition stamps (nm : string) (c : Call) : Prop :=
  ∀ doc, written_doc c = Some doc → get_prop doc "_type" = VStr nm.

(** The requests sent between an earlier and a later state. *)
Definition sent {St} (w w' : World St) : list Call :=
  drop (length (calls w)) (calls w').

(** The restriction of a row to a set of field names: the fields whose name
    is selected, with their values, and nothing else. *)
Definition restriction (names : list string) (row : gmap string value)
  : gmap string value :=
  filter (λ kv : string * value, kv.1 ∈ names) row.

(** The limit of a paginated [find]: the requested limit, or the default
    when none is requested, clamped to the interval from 0 to [max]. *)
Definition effective_limit (dflt max : Z) (requested : option Z) : Z :=
  Z.max 0 (Z.min max (default dflt requested)).

(** The number a query requests as [$limit], if any. *)
Definition requested_limit (q : gmap string value) : option Z :=
  match q !! "$limit" with
  | Some (VNum l) => Some l
  | _ => None
  end.

(** The rows of what [find] resolves with: the [data] of the envelope when
    pagination applies, the result itself otherwise. *)
Definition returned_rows (paginate r : value) : value :=
  if truthy (get_prop paginate "default") then get_prop r "data" else r.

(** The field selection of a query: the elements of [$select] when that is
    an array, nothing otherwise. *)
Definition selection (q : gmap string value) : list value :=
  match q !! "$select" with
  | Some (VArr xs) => xs
  | _ => []
  end.

(** A request that reads only: a query marked read-only. *)
Definition readonly_query (c : Call) : Prop :=
  match c with
  | CQuery q _ => n1ql_readonly q = true
  | _ => False
  end.

(** A value that is neither an object nor an array nor empty: a boolean, a
    number or a string. *)
Definition is_primitive (v : value) : bool :=
  match v with
  | VBool _ | VNum _ | VStr _ => true
  | _ => false
  end.

(** Unfolds the sequencing of [M]. *)
Ltac run := unfold mbind, mret, M_bind, M_ret in *; simpl in *.

(** ** An in-memory store client

    A client that keeps the documents in a map, in the manner of the mock
    bucket the test suite injects.  [faults] scripts failures of the
    connection: each request consumes one entry, and an entry that is truthy
    is reported as the [err] of that request, which then does nothing. *)
Module Mem.

Record state : Type := mk {
  docs : gmap string value;
  faults : list value
}.

(** The error object of a status code. *)
Definition failure (code : Z) : value := VObj {[ "code" := VNum code ]}.

Definition key_exists : Z := 12.
Definition key_not_found : Z := 13.

(** The fault of the current request, and the state with it consumed. *)
Definition next_fault (s : state) : value * state :=
  match faults s with
  | [] => (VNull, s)
  | f :: fs => (f, mk (docs s) fs)
  end.

Definition mem_get (key : string) (s : state) : (value * value) * state :=
  let '(f, s) := next_fault s in
  if truthy f then ((f, VUndefined), s)
  else
    match docs s !! key with
    | Some d => ((VNull, VObj {[ "cas" := VNum 1; "value" := d ]}), s)
    | None => ((failure key_not_found, VUndefined), s)
    end.

Definition mem_insert (key : string) (doc : value) (s : state)
  : (value * value) * state :=
  let '(f, s) := next_fault s in
  if truthy f then ((f, VUndefined), s)
  else
    match docs s !! key with
    | Some _ => ((failure key_exists, VUndefined), s)
    | None => ((VNull, VObj {[ "cas" := VNum 1 ]}), mk (<[key := doc]> (docs s)) (faults s))
    end.

Definition mem_replace (key : string) (doc : value) (s : state)
  : (value * value) * state :=
  let '(f, s) := next_fault s in
  if truthy f then ((f, VUndefined), s)
  else
    match docs s !! key with
    | Some _ => ((VNull, VObj {[ "cas" := VNum 1 ]}), mk (<[key := doc]> (docs s)) (faults s))
    | None => ((failure key_not_found, VUndefined), s)
    end.

(** [remove] is callback-style like the others.  This client tolerates
    the missing callback: it deletes the document and the call returns
    [undefined].  The couchbase 2.5.1 client and its mock are stricter: they
    throw a [TypeError] for the missing callback and delete nothing, so over
    them [remove] of an existing entity rejects with that error (every
    general statement about [remove] is for any client, that one
    included). *)
Definition mem_remove (key : string) (s : state) : outcome * state :=
  let '(f, s) := next_fault s in
  if truthy f then (Resolved VUndefined, s)
  else (Resolved VUndefined, mk (delete key (docs s)) (faults s)).

(** [query] does not evaluate the statement: every stored document is a
    row, and the meta data count the rows. *)
Definition mem_query (q : N1qlQuery) (values : value) (s : state)
  : (value * value * value) * state :=
  let '(f, s) := next_fault s in
  if truthy f then ((f, VUndefined, VUndefined), s)
  else
    let rows := (map_to_list (docs s)).*2 in
    ((VNull, VArr rows,
      VObj {[ "metrics" := VObj {[ "resultCount" := VNum (Z.of_nat (length rows)) ]} ]}), s).

Definition bucket : Bucket state :=
  {| bucket_get := mem_get;
     bucket_insert := mem_insert;
     bucket_replace := mem_replace;
     bucket_remove := mem_remove;
     bucket_query := mem_query |}.

(** Stand-ins for the imports: identifiers [id-0], [id-1], ...; the status
    code of the client above; a query builder that returns a fixed statement
    for the bucket with the query object as its only bound value. *)
Definition externals : Externals :=
  {| uuid := λ n, "id-" +:+ pretty n;
     keyNotFound := VNum key_not_found;
     QC_NOT_BOUNDED := VNum 1;
     QC_REQUEST_PLUS := VNum 2;
     QC_STATEMENT_PLUS := VNum 3;
     interpret := λ b q, Ok (VStr ("SELECT * FROM " +:+ b), VArr [q]) |}.

(** The service of the test suite: collection [users] in [testbucket]. *)
Definition users (paginate : value) : Service :=
  constructor {| opt_bucket := "testbucket";
                 opt_name := "users";
                 opt_id := Some "uuid";
                 opt_paginate := paginate;
                 opt_separator := None |}.

Definition world (docs : gmap string value) (faults : list value) : World state :=
  mkWorld (mk docs faults) 0 [].

End Mem.

(** Inputs for the runs below. *)
Module Sample.

(** The [users] service without and with pagination, and with a default
    page size of 0. *)
Definition plain : Service := Mem.users VUndefined.
Definition paged : Service :=
  Mem.users (VObj {[ "default" := VNum 10; "max" := VNum 50 ]}).
Definition zero_default : Service :=
  Mem.users (VObj {[ "default" := VNum 0; "max" := VNum 50 ]}).

(** A stored user, under its own key and under the key of another id. *)
Definition alice : gmap string value :=
  {[ "uuid" := VStr "1"; "foo" := VStr "bar"; "_type" := VStr "users" ]}.

Definition stored_alice : gmap string value := {[ "users::1" := VObj alice ]}.
Definition misfiled_alice : gmap string value := {[ "users::9" := VObj alice ]}.

(** A stored user whose id is the number 1, under the key of that id. *)
Definition numbered : gmap string value :=
  {[ "uuid" := VNum 1; "foo" := VStr "bar"; "_type" := VStr "users" ]}.
Definition stored_numbered : gmap string value := {[ "users::1" := VObj numbered ]}.

(** A document without id field, as spec section 8.2 has it. *)
Definition stored_a1 : gmap string value :=
  {[ "users::7" := VObj {[ "a" := VNum 1 ]} ]}.

(** The rows of the projection test: [{foo:'bar', bar:'foo'}]. *)
Definition foobar : gmap string value :=
  {[ "foo" := VStr "bar"; "bar" := VStr "foo" ]}.
Definition stored_foobar : gmap string value :=
  {[ "users::1" := VObj foobar; "users::2" := VObj foobar ]}.

(** A connection failure, as the client reports it. *)
Definition network_failure : value := Mem.failure 16.

(** Queries. *)
Definition query_limit_10000 : gmap string value :=
  {[ "foo" := VStr "bar"; "$limit" := VNum 10000 ]}.
Definition query_select_foo : gmap string value :=
  {[ "foo" := VStr "bar"; "$select" := VArr [VStr "foo"] ]}.
Definition query_select_none : gmap string value :=
  {[ "foo" := VStr "bar"; "$select" := VArr [] ]}.
Definition query_consistent : gmap string value :=
  {[ "foo" := VStr "bar"; "$consistency" := VNum 2 ]}.
Definition query_normal : gmap string value :=
  {[ "foo" := VStr "bar"; "_type" := VStr "users" ]}.

Definition params_of (q : gmap string value) : value :=
  VObj {[ "query" := VObj q ]}.

(** A service whose page sizes are inverted, one whose collection name
    continues the name [users], the options of the test suite as the object
    the constructor receives, and a query with every directive. *)
Definition bad_pages : Service :=
  Mem.users (VObj {[ "default" := VNum 10; "max" := VNum (-1) ]}).
Definition vip : Service :=
  constructor {| opt_bucket := "testbucket";
                 opt_name := "users::vip";
                 opt_id := Some "uuid";
                 opt_paginate := VUndefined;
                 opt_separator := None |}.
Definition raw_opts : value :=
  VObj {[ "bucket" := VStr "testbucket"; "connection" := VObj ∅;
          "name" := VStr "users"; "id" := VStr "uuid";
          "separator" := VStr "" ]}.
Definition query_full : gmap string value :=
  {[ "foo" := VStr "bar"; "$consistency" := VNum 2;
     "$select" := VArr [VStr "foo"]; "$skip" := VNum 5 ]}.

End Sample.

Section Service.

Context {St : Type}.
Variable bucket : Bucket St.
Variable ext : Externals.
Variable this : Service.

Definition call_get (key : string) : M St (value * value) :=
  λ w, let '(r, s) := bucket_get bucket key (store w) in
       (r, mkWorld s (drawn w) (calls w ++ [CGet key])).

Definition call_insert (key : string) (doc : value) : M St (value * value) :=
  λ w, let '(r, s) := bucket_insert bucket key doc (store w) in
       (r, mkWorld s (drawn w) (calls w ++ [CInsert key doc])).

Definition call_replace (key : string) (doc : value) : M St (value * value) :=
  λ w, let '(r, s) := bucket_replace bucket key doc (store w) in
       (r, mkWorld s (drawn w) (calls w ++ [CReplace key doc])).

Definition call_remove (key : string) : M St outcome :=
  λ w, let '(r, s) := bucket_remove bucket key (store w) in
       (r, mkWorld s (drawn w) (calls w ++ [CRemove key])).

Definition call_query (q : N1qlQuery) (values : value)
  : M St (value * value * value) :=
  λ w, let '(r, s) := bucket_query bucket q values (store w) in
       (r, mkWorld s (drawn w) (calls w ++ [CQuery q values])).

(** [uuid()] *)
Definition uuid_v4 : M St string :=
  λ w, (uuid ext (drawn w), mkWorld (store w) (S (drawn w)) (calls w)).

(** [this.opts.name] *)
Definition name : string := opt_name (this_opts this).

(** [_key(key = '')]:
    [return [this.opts.name || '', key].join(this.separator)] *)
Definition _key (key : value) : string :=
  let key := match key with VUndefined => VStr "" | _ => key end in
  array_join (this_separator this) [js_or (VStr name) (VStr ""); key].

(** [_id(data)]:
    [if (!(this.id in data)) { data[this.id] = uuid(); } return data[this.id]].
    Returns the id together with [data] as the call leaves it. *)
Definition _id (data : value) : M St (result (value * value)) :=
  match has_prop (this_id this) data with
  | Ok true => mret (Ok (get_prop data (this_id this), data))
  | Ok false =>
      u ← uuid_v4;
      mret (match set_prop data (this_id this) (VStr u) with
            | Ok data' => Ok (get_prop data' (this_id this), data')
            | Throws e => Throws e
            | OutOfFragment => OutOfFragment
            end)
  | Throws e => mret (Throws e)
  | OutOfFragment => mret OutOfFragment
  end.

(** [_stripKeys(selected, results)]: [results.map] of the function that
    copies, out of the own enumerable keys of a row, those found in
    [selected]. *)
Definition strip_row (selected : list value) (a : value) : value :=
  VObj (filter (λ kv : string * value, index_of_found selected kv.1)
               (own_enumerable a)).

Definition _stripKeys (selected : list value) (results : value) : result value :=
  match results with
  | VArr rows => Ok (VArr (List.map (strip_row selected) rows))
  | VUndefined | VNull => Throws (TypeError "Cannot read property 'map'")
  | _ => Throws (TypeError "results.map is not a function")
  end.

(** [_buildN1QL(couchbase, str, consistency, readonly = false)] *)
Definition _buildN1QL (str consistency : value) (readonly : bool) : N1qlQuery :=
  {| n1ql_str := str;
     n1ql_consistency :=
       if strict_eq consistency (QC_NOT_BOUNDED ext) then Some NOT_BOUNDED
       else if strict_eq consistency (QC_REQUEST_PLUS ext) then Some REQUEST_PLUS
       else if strict_eq consistency (QC_STATEMENT_PLUS ext) then Some STATEMENT_PLUS
       else None;
     n1ql_readonly := readonly |}.

(** The callback [get] passes to [bucket.get], lines 202-212.  It rejects
    with [NotFound] on the missing-key code and with [err] itself on any
    other error ([reject] after a first [reject] has no effect); without
    error it rejects with [NotFound] on an empty element and resolves with
    [element.value || element]. *)
Definition get_callback (err element : value) : outcome :=
  if truthy err then
    if strict_eq (get_prop err "code") (keyNotFound ext)
    then Rejected (NotFound "Does not exist")
    else Rejected (Thrown err)
  else if is_nullish element
  then Rejected (NotFound "Does not exist")
  else Resolved (js_or (get_prop element "value") element).

(** [get(id, params)] *)
Definition get (id params : value) : M St outcome :=
  '(err, element) ← call_get (_key id);
  mret (get_callback err element).

(** [create(data, params)].  After [reject(BadRequest)] the executor goes on
    and throws on [data._type], which a settled promise ignores.  The insert
    callback does not look at [err]: it resolves with [this.get(...)].  A
    throw inside the [then] handler leaves the promise unsettled. *)
Definition create (data params : value) : M St outcome :=
  if is_nullish data
  then mret (Rejected (BadRequest "No data passed to create"))
  else
    match set_prop data "_type" (VStr name) with
    | Throws e => mret (Rejected e)
    | OutOfFragment => mret Unmodelled
    | Ok data =>
        r ← _id data;
        match r with
        | Ok (id, data) =>
            _ ← call_insert (_key id) data;
            r' ← _id data;
            match r' with
            | Ok (id', _) => get id' params
            | Throws _ => mret Pending
            | OutOfFragment => mret Unmodelled
            end
        | Throws _ => mret Pending
        | OutOfFragment => mret Unmodelled
        end
    end.

(** The document [patch] hands to [replace]:
    [Object.assign(Object.assign(_obj, data), { _type: this.opts.name })]. *)
Definition merged (_obj data : value) : result value :=
  match object_assign _obj data with
  | Ok m => object_assign m (VObj {[ "_type" := VStr name ]})
  | r => r
  end.

(** [patch(id, data, params)].  The chain started by [this.get] is not
    connected to [reject]: when the first [get] rejects, or the [then]
    handler throws, the promise is never settled.  The replace callback does
    not look at [err]: it resolves with a second [this.get]. *)
Definition patch (id data params : value) : M St outcome :=
  o ← get id params;
  match o with
  | Resolved _obj =>
      match merged _obj data with
      | Ok doc =>
          _ ← call_replace (_key id) doc;
          get id params
      | Throws _ => mret Pending
      | OutOfFragment => mret Unmodelled
      end
  | Rejected _ => mret Pending
  | Pending => mret Pending
  | Unmodelled => mret Unmodelled
  end.

(** [update(id, data, params)]:
    [this.patch(id, data, params).then((r) => { resolve(r); })], with no
    rejection handler. *)
Definition update (id data params : value) : M St outcome :=
  o ← patch id data params;
  match o with
  | Resolved r => mret (Resolved r)
  | Rejected _ => mret Pending
  | Pending => mret Pending
  | Unmodelled => mret Unmodelled
  end.

(** [remove(id, params)]: resolves with the promise
    [this.get(id, params).then(data => ... bucket.remove(this._key(this._id(data))))],
    so it settles as that chain does: with the rejection of [get], with an
    exception of [_id], or with whatever the store's [remove] returns. *)
Definition remove (id params : value) : M St outcome :=
  o ← get id params;
  match o with
  | Resolved data =>
      r ← _id data;
      match r with
      | Ok (id', _) => call_remove (_key id')
      | Throws e => mret (Rejected e)
      | OutOfFragment => mret Unmodelled
      end
  | o => mret o
  end.

(** [for (let select of v)]: the elements of an array, the characters of a
    string; any other value is not iterable. *)
Definition iterate (v : value) : result (list value) :=
  match v with
  | VArr xs => Ok xs
  | VStr s => Ok (chars s)
  | _ => Throws (TypeError "query.$select is not iterable")
  end.

(** Lines 127-131 of [_find]:
    [let selected = [];
     if (query.$select) {
       for (let select of query.$select) { selected.push(select); }
       delete query.$select;
     }]
    Returns [selected] and the query as these lines leave it. *)
Definition collect_selected (query : value) : result (list value * value) :=
  match read_prop query "$select" with
  | Ok sel =>
      if truthy sel then
        match iterate sel with
        | Ok selected => Ok (selected, delete_prop query "$select")
        | Throws e => Throws e
        | OutOfFragment => OutOfFragment
        end
      else Ok ([], query)
  | Throws e => Throws e
  | OutOfFragment => OutOfFragment
  end.

(** The object [_find] resolves with when pagination applies:
    [{ total: queryData.metrics.resultCount, limit: query.$limit,
       skip: query.$skip != null ? query.$skip : 0, data: results }]. *)
Definition envelope (query results queryData : value) : result value :=
  match read_prop queryData "metrics" with
  | Ok metrics =>
      match read_prop metrics "resultCount" with
      | Ok total =>
          let skip := get_prop query "$skip" in
          Ok (VObj {[ "total" := total;
                      "limit" := get_prop query "$limit";
                      "skip" := if is_nullish skip then VNum 0 else skip;
                      "data" := results ]})
      | Throws e => Throws e
      | OutOfFragment => OutOfFragment
      end
  | Throws e => Throws e
  | OutOfFragment => OutOfFragment
  end.

(** The callback [_find] passes to [bucket.query], lines 137-154; [err] is
    not looked at.  The callback runs outside the executor, so an exception
    in it (for instance [results.map] on the [undefined] results of a failed
    query) leaves the promise as it is: pending if [resolve] was not reached.
    A second [resolve] has no effect. *)
Definition query_callback (selected : list value)
  (paginate query results queryData : value) : outcome :=
  match (if (0 <? length selected)%nat
         then _stripKeys selected results else Ok results) with
  | Ok results =>
      match read_prop paginate "default" with
      | Ok d =>
          if negb (truthy d) then Resolved results
          else
            match envelope query results queryData with
            | Ok r => Resolved r
            | Throws _ => Pending
            | OutOfFragment => Unmodelled
            end
      | Throws _ => Pending
      | OutOfFragment => Unmodelled
      end
  | Throws _ => Pending
  | OutOfFragment => Unmodelled
  end.

(** [_find(query, paginate, consistency = null)].  Returns how the promise
    settles together with the [query] object as the call leaves it.  An
    [undefined] consistency takes the parameter's default, [null].  An
    exception in the executor ([interpret], the loop over [$select]) rejects
    the promise. *)
Definition _find (query paginate consistency : value) : M St (outcome * value) :=
  let consistency := or_null consistency in
  match interpret ext (opt_bucket (this_opts this)) query with
  | Ok (queryStr, values) =>
      match collect_selected query with
      | Ok (selected, query) =>
          '(err, results, queryData) ←
            call_query (_buildN1QL queryStr consistency true) values;
          mret (query_callback selected paginate query results queryData, query)
      | Throws e => mret (Rejected e, query)
      | OutOfFragment => mret (Unmodelled, query)
      end
  | Throws e => mret (Rejected e, query)
  | OutOfFragment => mret (Unmodelled, query)
  end.

(** Lines 178-181 of [find]:
    [if (paginate.default) {
       if (query.$limit == null) { query.$limit = paginate.default; }
       query.$limit = R.clamp(0, paginate.max)(query.$limit);
     }]
    on a [query] that is an object.  Returns the query as these lines leave
    it, also when they throw. *)
Definition assign_prop (v : value) (k : string) (x : value) : value :=
  match v with
  | VObj o => VObj (<[k := x]> o)
  | _ => v
  end.

Definition limit_step (paginate query : value) : result unit * value :=
  match read_prop paginate "default" with
  | Ok d =>
      if truthy d then
        let query :=
          if is_nullish (get_prop query "$limit")
          then assign_prop query "$limit" d else query in
        match R_clamp (VNum 0) (get_prop paginate "max") (get_prop query "$limit") with
        | Ok l => (Ok (), assign_prop query "$limit" l)
        | Throws e => (Throws e, query)
        | OutOfFragment => (OutOfFragment, query)
        end
      else (Ok (), query)
  | Throws e => (Throws e, query)
  | OutOfFragment => (OutOfFragment, query)
  end.

(** Line 171 of [find]:
    [(params && typeof params.paginate !== 'undefined')
       ? params.paginate : this.paginate] *)
Definition paginate_of (params : value) : value :=
  if truthy params && negb (strict_eq (get_prop params "paginate") VUndefined)
  then get_prop params "paginate" else this_paginate this.

(** [find(params)].  Returns how the promise settles together with the
    caller's [params.query] object as the call leaves it: the method works on
    that object itself, not on a copy.

    After each [reject(new BadRequest(...))] the executor goes on and throws
    on the missing object, which the settled promise ignores.  Line 186 of
    the source reads [.then((r) = { resolve(r); })]; it is read as the arrow
    function [(r) => { resolve(r); }], the only reading under which the
    method exists.  That [then] has no rejection handler, so a rejection of
    [_find] leaves the promise pending. *)
Definition find (params : value) : M St (outcome * value) :=
  if is_nullish params
  then mret (Rejected (BadRequest "Null passed to find"), VUndefined)
  else
    let query := get_prop params "query" in
    let paginate := paginate_of params in
    if is_nullish query
    then mret (Rejected (BadRequest "Null query object passed"), query)
    else
      match set_prop query "_type" (VStr name) with
      | Ok query =>
          match limit_step paginate query with
          | (Ok _, query) =>
              let consistency := get_prop query "$consistency" in
              let query := delete_prop query "$consistency" in
              '(o, query) ← _find query paginate consistency;
              mret (match o with
                    | Resolved r => Resolved r
                    | Rejected _ => Pending
                    | Pending => Pending
                    | Unmodelled => Unmodelled
                    end, query)
          | (Throws e, query) => mret (Rejected e, query)
          | (OutOfFragment, query) => mret (Unmodelled, query)
          end
      | Throws e => mret (Rejected e, query)
      | OutOfFragment => mret (Unmodelled, query)
      end.


(** ** General facts about the methods *)

Lemma get_eq id params w :
  get id params w =
  (get_callback (bucket_get bucket (_key id) (store w)).1.1
                (bucket_get bucket (_key id) (store w)).1.2,
   mkWorld (bucket_get bucket (_key id) (store w)).2 (drawn w)
           (calls w ++ [CGet (_key id)])).
Proof.
  unfold get, call_get. run.
  destruct (bucket_get bucket (_key id) (store w)) as [[err element] s].
  reflexivity.
Qed.

Lemma get_calls id params w :
  calls (get id params w).2 = calls w ++ [CGet (_key id)].
Proof. rewrite get_eq. reflexivity. Qed.

Lemma get_drawn id params w : drawn (get id params w).2 = drawn w.
Proof. rewrite get_eq. reflexivity. Qed.

(** [get] passes on an error of the store that does not carry the
    missing-key code, and turns the missing-key code into [NotFound]. *)
Lemma get_callback_error err element :
  truthy err = true →
  get_callback err element
  = if strict_eq (get_prop err "code") (keyNotFound ext)
    then Rejected (NotFound "Does not exist")
    else Rejected (Thrown err).
Proof. intros H. unfold get_callback. rewrite H. reflexivity. Qed.

(** [get] never resolves with [null] or [undefined]. *)
Lemma get_callback_not_nullish err element v :
  get_callback err element = Resolved v → is_nullish v = false.
Proof.
  unfold get_callback.
  destruct (truthy err); [destruct (strict_eq _ _); discriminate|].
  destruct (is_nullish element) eqn:He; [discriminate|].
  intros [= <-]. unfold js_or.
  destruct (truthy (get_prop element "value")) eqn:Ht; [|exact He].
  destruct (get_prop element "value"); simpl in *; congruence.
Qed.

(** [_key] is the collection name, the separator and the printed id. *)
Lemma _key_eq v :
  _key v = to_string (js_or (VStr name) (VStr "")) +:+ this_separator this
           +:+ join_element v.
Proof.
  unfold _key, array_join, js_or. simpl.
  destruct v; simpl; try reflexivity;
    destruct (negb (String.eqb name "")); reflexivity.
Qed.

Lemma _key_inj a b : join_element a ≠ join_element b → _key a ≠ _key b.
Proof.
  intros Hne Heq. rewrite !_key_eq in Heq.
  apply String.app_inj in Heq. apply String.app_inj in Heq. contradiction.
Qed.

(** [_id] on an object: the id field when there is one, else a fresh
    identifier, which is written into the object. *)
Lemma _id_object (data : gmap string value) w :
  _id (VObj data) w =
  match data !! this_id this with
  | Some v => (Ok (v, VObj data), w)
  | None =>
      (Ok (VStr (uuid ext (drawn w)),
           VObj (<[this_id this := VStr (uuid ext (drawn w))]> data)),
       mkWorld (store w) (S (drawn w)) (calls w))
  end.
Proof.
  unfold _id, has_prop, uuid_v4. run.
  destruct (data !! this_id this) as [v|] eqn:Hl.
  - rewrite bool_decide_eq_true_2 by eauto. reflexivity.
  - rewrite bool_decide_eq_false_2 by (intros [? ?]; congruence).
    simpl. rewrite lookup_insert_eq. reflexivity.
Qed.

Lemma sent_app (w w' : World St) (l : list Call) :
  calls w' = calls w ++ l → sent w w' = l.
Proof. unfold sent. intros ->. apply drop_app_length. Qed.

(** [remove] on an entity that [get] finds settles as the store's [remove]
    does, called with the key built from the entity's id field or, when the
    entity has none, from a fresh identifier. *)
Lemma remove_eq id params w (data : gmap string value) :
  (get id params w).1 = Resolved (VObj data) →
  let idv := default (VStr (uuid ext (drawn w))) (data !! this_id this) in
  let w1 := (get id params w).2 in
  remove id params w =
  ((bucket_remove bucket (_key idv) (store w1)).1,
   mkWorld (bucket_remove bucket (_key idv) (store w1)).2
           (if data !! this_id this is Some _ then drawn w else S (drawn w))
           (calls w ++ [CGet (_key id); CRemove (_key idv)])).
Proof.
  intros Hg. simpl. unfold remove. run.
  pose proof (get_calls id params w) as Hc.
  pose proof (get_drawn id params w) as Hd.
  destruct (get id params w) as [o w1]. simpl in *. subst o.
  rewrite _id_object. unfold call_remove.
  destruct (data !! this_id this); simpl;
    rewrite Hc, Hd, <- app_assoc;
    destruct (bucket_remove _ _ _); reflexivity.
Qed.

(** C9, as the code has it: when [remove(id, params)] succeeds, the key
    handed to the store's [remove] is built from the id field of the entity
    that [get] fetched, not from the [id] argument.  The requests sent are
    the [get] at the key of [id] and the [remove] at the key of the entity's
    id.  The two keys are the same exactly when the two ids print alike
    under [join]: two different strings give different keys, while the
    number 1 and the string ['1'] give the same.  When the entity has no id
    field, a fresh identifier is drawn, written into the entity, and used
    for the key. *)
Theorem remove_key_from_fetched_entity id params w r w' :
  remove id params w = (Resolved r, w') →
  ∃ (data : gmap string value) (idv : value),
    (get id params w).1 = Resolved (VObj data) ∧
    sent w w' = [CGet (_key id); CRemove (_key idv)] ∧
    match data !! this_id this with
    | Some v => idv = v ∧ drawn w' = drawn w
    | None =>
        idv = VStr (uuid ext (drawn w)) ∧ drawn w' = S (drawn w) ∧
        (_id (VObj data) (get id params w).2).1
        = Ok (idv, VObj (<[this_id this := idv]> data))
    end ∧
    (_key idv = _key id ↔ join_element idv = join_element id) ∧
    (join_element idv ≠ join_element id → _key idv ≠ _key id) ∧
    (∀ a b, idv = VStr a → id = VStr b → a ≠ b → _key idv ≠ _key id).
Proof.
  intros H.
  destruct (get id params w) as [o w1] eqn:Hg.
  assert (∃ data, o = Resolved (VObj data)) as [data ->].
  { unfold remove in H. run. rewrite Hg in H.
    destruct o as [v| | |]; try discriminate.
    destruct v; try (eexists; reflexivity);
      unfold _id, has_prop in H; run; discriminate. }
  pose proof (remove_eq id params w data) as He.
  rewrite Hg in He. simpl in He. specialize (He eq_refl).
  rewrite H in He. injection He as Hr Hw'. subst w'.
  exists data, (default (VStr (uuid ext (drawn w))) (data !! this_id this)).
  split; [reflexivity|]. split; [apply sent_app; reflexivity|].
  split; [|split; [|split; [apply _key_inj|]]].
  2: { rewrite !_key_eq. split; [|intros ->; reflexivity].
       intros Hk. apply String.app_inj in Hk. apply String.app_inj in Hk.
       exact Hk. }
  2: { intros a b Ha -> Hab. apply _key_inj. rewrite Ha. simpl. exact Hab. }
  pose proof (get_drawn id params w) as Hd. rewrite Hg in Hd. simpl in Hd.
  rewrite _id_object.
  destruct (data !! this_id this); simpl; rewrite ?Hd; auto.
Qed.

(** The document [patch] writes: [_type] is the collection name, every
    other field comes from the payload when the payload has it, and from the
    stored entity otherwise. *)
Lemma merged_eq (obj : gmap string value) data :
  merged (VObj obj) data
  = Ok (VObj ({[ "_type" := VStr name ]} ∪ (own_enumerable data ∪ obj))).
Proof. reflexivity. Qed.

Lemma merged_lookup (obj d : gmap string value) k :
  ({[ "_type" := VStr name ]} ∪ (d ∪ obj)) !! k
  = if decide (k = "_type") then Some (VStr name)
    else match d !! k with Some v => Some v | None => obj !! k end.
Proof.
  destruct (decide (k = "_type")) as [->|Hk].
  - apply lookup_union_Some_l. apply lookup_singleton_eq.
  - rewrite lookup_union_r by (apply lookup_singleton_ne; congruence).
    destruct (d !! k) as [v|] eqn:Hd.
    + apply lookup_union_Some_l. exact Hd.
    + apply lookup_union_r. exact Hd.
Qed.

Lemma merged_type _obj data doc :
  merged _obj data = Ok doc → get_prop doc "_type" = VStr name.
Proof.
  destruct _obj; try discriminate. rewrite merged_eq. intros [= <-].
  simpl. rewrite merged_lookup. reflexivity.
Qed.

(** [patch] on an entity that [get] finds. *)
Lemma patch_eq id data params w (obj : gmap string value) :
  (get id params w).1 = Resolved (VObj obj) →
  patch id data params w
  = get id params
      (call_replace (_key id)
         (VObj ({[ "_type" := VStr name ]} ∪ (own_enumerable data ∪ obj)))
         (get id params w).2).2.
Proof.
  intros Hg. unfold patch. run.
  destruct (get id params w) as [o w1]. simpl in Hg. subst o.
  rewrite merged_eq. simpl. destruct (call_replace _ _ w1). reflexivity.
Qed.

Lemma call_replace_calls key doc w :
  calls (call_replace key doc w).2 = calls w ++ [CReplace key doc].
Proof. unfold call_replace. destruct (bucket_replace _ _ _ _). reflexivity. Qed.

(** C4: for every stored entity and every payload, [patch] reads the
    entity with [get], sends one [replace] at the key of [id] whose document
    has [_type] set to the collection name, the payload's fields, and the
    stored entity's fields that the payload does not have, and then settles
    as a fresh [get] of the same id does. *)
Theorem patch_merges_replaces_rereads id data params w (obj : gmap string value) :
  (get id params w).1 = Resolved (VObj obj) →
  ∃ doc : gmap string value,
    (∀ k, doc !! k
          = if decide (k = "_type") then Some (VStr name)
            else match own_enumerable data !! k with
                 | Some v => Some v
                 | None => obj !! k
                 end) ∧
    let w2 := (call_replace (_key id) (VObj doc) (get id params w).2).2 in
    sent w w2 = [CGet (_key id); CReplace (_key id) (VObj doc)] ∧
    patch id data params w = get id params w2 ∧
    sent w (patch id data params w).2
    = [CGet (_key id); CReplace (_key id) (VObj doc); CGet (_key id)].
Proof.
  intros Hg.
  exists ({[ "_type" := VStr name ]} ∪ (own_enumerable data ∪ obj)).
  split; [intros k; apply merged_lookup|]. simpl.
  rewrite (patch_eq _ _ _ _ _ Hg).
  split; [|split; [reflexivity|]]; apply sent_app.
  - rewrite call_replace_calls, get_calls, <- app_assoc. reflexivity.
  - rewrite get_calls, call_replace_calls, get_calls, <- !app_assoc. reflexivity.
Qed.

(** [update] settles as [patch] does when [patch] resolves, and never
    rejects. *)
Lemma update_resolves_as_patch id data params w r :
  (patch id data params w).1 = Resolved r →
  update id data params w = patch id data params w.
Proof.
  intros H. unfold update. run.
  destruct (patch id data params w) as [o w']. simpl in H. subst o. reflexivity.
Qed.

Lemma update_never_rejects id data params w e :
  (update id data params w).1 ≠ Rejected e.
Proof.
  unfold update. run.
  destruct (patch id data params w) as [[| | |] w']; discriminate.
Qed.

Lemma update_pending_when_patch_rejects id data params w e :
  (patch id data params w).1 = Rejected e →
  (update id data params w).1 = Pending.
Proof.
  intros H. unfold update. run.
  destruct (patch id data params w) as [o w']. simpl in H. subst o. reflexivity.
Qed.

Lemma sent_refl (w : World St) : sent w w = [].
Proof. apply sent_app. rewrite app_nil_r. reflexivity. Qed.

Lemma call_insert_calls key doc w :
  calls (call_insert key doc w).2 = calls w ++ [CInsert key doc].
Proof. unfold call_insert. destruct (bucket_insert _ _ _ _). reflexivity. Qed.

(** [create] on an object: the payload with [_type] set, and with a fresh
    identifier when it has no id field, is inserted at the key of its id;
    whatever the store answers to the insert, the promise then settles as
    [get] of that id does. *)
Lemma create_eq (d : gmap string value) params w :
  let d1 := <["_type" := VStr name]> d in
  let idv := default (VStr (uuid ext (drawn w))) (d1 !! this_id this) in
  let doc := if d1 !! this_id this is Some _ then d1
             else <[this_id this := idv]> d1 in
  let w1 := mkWorld (store w)
              (if d1 !! this_id this is Some _ then drawn w else S (drawn w))
              (calls w) in
  create (VObj d) params w
  = get idv params (call_insert (_key idv) (VObj doc) w1).2.
Proof.
  simpl. unfold create. run. rewrite _id_object.
  destruct (<["_type" := VStr name]> d !! this_id this) as [v|] eqn:Hl; simpl.
  - destruct w as [s n c]; simpl.
    destruct (call_insert _ _ _) as [r w2]; simpl.
    rewrite _id_object, Hl. reflexivity.
  - destruct (call_insert _ _ _) as [r w2]; simpl.
    rewrite _id_object, lookup_insert_eq. reflexivity.
Qed.

(** C7: for every payload, whatever [create], [patch] and [update] write
    into the store has [_type] equal to the collection name, also when the
    payload carries a [_type] of its own; and [create] on an object does
    write: it sends one insert, whose document has that [_type].  (An array
    handed to [create] as payload is outside the fragment.) *)
Theorem writes_force_type id data params w :
  Forall (stamps name) (sent w (create data params w).2) ∧
  Forall (stamps name) (sent w (patch id data params w).2) ∧
  Forall (stamps name) (sent w (update id data params w).2) ∧
  ∀ d : gmap string value, data = VObj d →
    ∃ key doc, sent w (create data params w).2 = [CInsert key doc; CGet key] ∧
               get_prop doc "_type" = VStr name.
Proof.
  assert (Hpatch : Forall (stamps name) (sent w (patch id data params w).2)).
  { unfold patch. run.
    pose proof (get_calls id params w) as Hc.
    destruct (get id params w) as [o w1]. simpl in Hc.
    destruct o as [_obj| | |]; simpl;
      try (erewrite sent_app by eassumption; repeat constructor; discriminate).
    destruct (merged _obj data) as [doc| |] eqn:Hm; simpl;
      try (erewrite sent_app by eassumption; repeat constructor; discriminate).
    pose proof (call_replace_calls (_key id) doc w1) as Hr.
    destruct (call_replace (_key id) doc w1) as [r w2]. simpl in Hr.
    erewrite sent_app
      by (rewrite get_calls, Hr, Hc, <- !app_assoc; reflexivity).
    repeat constructor; try discriminate.
    intros doc' [= <-]. eapply merged_type, Hm. }
  assert (Hcreate : ∀ d : gmap string value, data = VObj d →
    ∃ key doc, sent w (create data params w).2 = [CInsert key doc; CGet key] ∧
               get_prop doc "_type" = VStr name).
  { intros d ->. rewrite create_eq. do 2 eexists. split.
    - apply sent_app.
      rewrite get_calls, call_insert_calls, <- app_assoc. reflexivity.
    - destruct (<["_type" := VStr name]> d !! this_id this) eqn:Hl; simpl.
      + rewrite lookup_insert_eq. reflexivity.
      + rewrite lookup_insert_ne
          by (intros Heq; rewrite Heq, lookup_insert_eq in Hl; discriminate).
        rewrite lookup_insert_eq. reflexivity. }
  split; [|split; [exact Hpatch|split; [|exact Hcreate]]].
  - destruct data as [| | | | | |d];
      try (unfold create; run; rewrite sent_refl; constructor).
    destruct (Hcreate d eq_refl) as (key & doc & -> & Ht).
    repeat constructor; [intros doc' [= <-]; exact Ht | discriminate].
  - unfold update. run.
    destruct (patch id data params w) as [[| | |] w']; exact Hpatch.
Qed.

(** What the pagination lines of [find] can throw. *)
Lemma js_lt_no_throw a b e : js_lt a b ≠ Throws e.
Proof. destruct a, b; simpl; try destruct b0; discriminate. Qed.

Lemma R_clamp_throws min max v e :
  R_clamp min max v = Throws e →
  e = PlainError "min must not be greater than max in clamp(min, max, value)".
Proof.
  unfold R_clamp, js_gt.
  destruct (js_lt max min) as [[|]| |] eqn:H1; try discriminate.
  - intros [= <-]. reflexivity.
  - destruct (js_lt v min) as [[|]| |] eqn:H2; try discriminate.
    + destruct (js_lt max v) as [[|]| |] eqn:H3; try discriminate.
      intros _. exfalso. eapply js_lt_no_throw, H3.
    + intros _. exfalso. eapply js_lt_no_throw, H2.
  - intros _. exfalso. eapply js_lt_no_throw, H1.
Qed.

Lemma limit_step_throws paginate query e query' :
  limit_step paginate query = (Throws e, query') →
  ∀ msg, e ≠ BadRequest msg.
Proof.
  unfold limit_step, read_prop.
  destruct (is_nullish paginate); [intros [= <- _]; discriminate|].
  destruct (truthy (get_prop paginate "default")); [|discriminate].
  match goal with
  | |- context [R_clamp ?a ?b ?c] => destruct (R_clamp a b c) eqn:Hc
  end; try discriminate.
  intros [= <- _]. apply R_clamp_throws in Hc. subst. discriminate.
Qed.

(** C6: [find] rejects with [BadRequest] in exactly two cases: when it is
    called without params ([params == null]), and when the params have no
    query ([params.query == null]). *)
Theorem find_bad_request_iff params w :
  (∃ msg, (find params w).1.1 = Rejected (BadRequest msg))
  ↔ is_nullish params = true ∨ is_nullish (get_prop params "query") = true.
Proof.
  unfold find. split.
  - intros [msg H].
    destruct (is_nullish params); [left; reflexivity|].
    destruct (is_nullish (get_prop params "query")); [right; reflexivity|].
    exfalso. run.
    destruct (set_prop (get_prop params "query") "_type" (VStr name))
      as [query| |] eqn:Hs; simpl in H.
    + match type of H with
      | context [limit_step ?p ?q] => destruct (limit_step p q) as [[[]| |] query'] eqn:Hl
      end; simpl in H.
      * destruct (_find _ _ _ w) as [[[| | |] qf] w']; discriminate.
      * injection H as ->. eapply limit_step_throws; [exact Hl|reflexivity].
      * discriminate.
    + destruct (get_prop params "query"); simpl in Hs; try discriminate;
        injection Hs as <-; discriminate.
    + discriminate.
  - intros [H|H].
    + rewrite H. eexists. reflexivity.
    + destruct (is_nullish params); [eexists; reflexivity|].
      rewrite H. eexists. reflexivity.
Qed.

(** ** [find]: what it sends and what it leaves in the query *)

Lemma limit_step_ok paginate (q0 : gmap string value) u query' :
  limit_step paginate (VObj q0) = (Ok u, query') →
  (truthy (get_prop paginate "default") = false ∧ query' = VObj q0) ∨
  (truthy (get_prop paginate "default") = true ∧
   ∃ l, R_clamp (VNum 0) (get_prop paginate "max")
          (if is_nullish (get_prop (VObj q0) "$limit")
           then get_prop paginate "default"
           else get_prop (VObj q0) "$limit") = Ok l ∧
        query' = VObj (<["$limit" := l]> q0)).
Proof.
  unfold limit_step, read_prop.
  destruct (is_nullish paginate); [discriminate|].
  destruct (truthy (get_prop paginate "default")).
  - destruct (is_nullish (get_prop (VObj q0) "$limit")); simpl.
    + rewrite lookup_insert_eq. simpl.
      destruct (R_clamp _ _ _) as [l| |]; try discriminate.
      intros [= _ <-]. right. split; [reflexivity|].
      exists l. rewrite insert_insert_eq. auto.
    + destruct (R_clamp _ _ _) as [l| |]; try discriminate.
      intros [= _ <-]. right. split; [reflexivity|]. exists l. auto.
  - intros [= _ <-]. left. auto.
Qed.

Lemma collect_selected_object (q : gmap string value) sel qf :
  collect_selected (VObj q) = Ok (sel, qf) →
  (truthy (get_prop (VObj q) "$select") = false ∧ sel = [] ∧ qf = VObj q) ∨
  (truthy (get_prop (VObj q) "$select") = true ∧
   iterate (get_prop (VObj q) "$select") = Ok sel ∧
   qf = VObj (delete "$select" q)).
Proof.
  unfold collect_selected, read_prop. simpl.
  destruct (truthy _).
  - destruct (iterate _) as [xs| |]; try discriminate.
    intros [= <- <-]. right. auto.
  - intros [= <- <-]. left. auto.
Qed.

(** [_find] either sends nothing, and then does not resolve and leaves the
    query as it is, or it sends the one statement compiled from the query and
    settles as the callback decides on the store's answer. *)
Lemma _find_cases query paginate consistency w o qf w' :
  _find query paginate consistency w = (o, qf, w') →
  (sent w w' = [] ∧ qf = query ∧ ∀ r, o ≠ Resolved r) ∨
  (∃ str vals sel,
     interpret ext (opt_bucket (this_opts this)) query = Ok (str, vals) ∧
     collect_selected query = Ok (sel, qf) ∧
     sent w w' = [CQuery (_buildN1QL str (or_null consistency) true) vals] ∧
     o = query_callback sel paginate qf
           (bucket_query bucket (_buildN1QL str (or_null consistency) true)
              vals (store w)).1.1.2
           (bucket_query bucket (_buildN1QL str (or_null consistency) true)
              vals (store w)).1.2).
Proof.
  unfold _find. run.
  destruct (interpret _ _ _) as [[str vals]| |].
  - destruct (collect_selected query) as [[sel query']| |].
    + unfold call_query.
      destruct (bucket_query _ _ _ _) as [[[err results] qd] s] eqn:Hb. simpl.
      intros [= <- <- <-]. right. exists str, vals, sel.
      repeat split; try reflexivity; [apply sent_app; reflexivity|].
      rewrite Hb. reflexivity.
    + intros [= <- <- <-]. left. rewrite sent_refl. repeat split. discriminate.
    + intros [= <- <- <-]. left. rewrite sent_refl. repeat split. discriminate.
  - intros [= <- <- <-]. left. rewrite sent_refl. repeat split. discriminate.
  - intros [= <- <- <-]. left. rewrite sent_refl. repeat split. discriminate.
Qed.

(** What the callback resolves with: the rows, stripped when fields are
    selected, inside an envelope that echoes [query.$limit] when pagination
    applies. *)
Lemma query_callback_resolved sel paginate query results qd r :
  query_callback sel paginate query results qd = Resolved r →
  (if (0 <? length sel)%nat then _stripKeys sel results else Ok results)
  = Ok (returned_rows paginate r) ∧
  (truthy (get_prop paginate "default") = true →
   get_prop r "limit" = get_prop query "$limit").
Proof.
  unfold query_callback, returned_rows, read_prop.
  destruct (if (0 <? length sel)%nat then _ else _) as [rows| |]; try discriminate.
  destruct (is_nullish paginate); [discriminate|].
  destruct (truthy (get_prop paginate "default")); simpl.
  - unfold envelope, read_prop.
    destruct (is_nullish qd); [discriminate|].
    destruct (is_nullish (get_prop qd "metrics")); [discriminate|].
    intros [= <-]. split; [reflexivity|]. intros _. reflexivity.
  - intros [= <-]. split; [reflexivity|]. discriminate.
Qed.

(** [find] on params whose query is an object: the query gets [_type], the
    pagination lines run, [$consistency] is taken out, and [_find] does the
    rest; its rejection is dropped. *)
Lemma find_object params (q : gmap string value) w o qf w' :
  get_prop params "query" = VObj q →
  find params w = (o, qf, w') →
  (∃ e query', limit_step (paginate_of params) (VObj (<["_type" := VStr name]> q))
               = (e, query') ∧ (∀ u, e ≠ Ok u) ∧
               sent w w' = [] ∧ qf = query' ∧ ∀ r, o ≠ Resolved r) ∨
  (∃ u q1 o1,
     limit_step (paginate_of params) (VObj (<["_type" := VStr name]> q))
     = (Ok u, VObj q1) ∧
     _find (VObj (delete "$consistency" q1)) (paginate_of params)
           (get_prop (VObj q1) "$consistency") w = (o1, qf, w') ∧
     (∀ r, o = Resolved r ↔ o1 = Resolved r)).
Proof.
  intros Hq. unfold find.
  assert (is_nullish params = false) as -> by (destruct params; done).
  rewrite Hq. simpl.
  destruct (limit_step _ _) as [[u| |] query'] eqn:Hl; run.
  - destruct (limit_step_ok _ _ _ _ Hl) as [[_ ->]|[_ (l & _ & ->)]]; simpl;
      destruct (_find _ _ _ w) as [[o1 qf1] w1] eqn:Hf;
      intros [= <- <- <-]; right; do 3 eexists;
      (split; [reflexivity|]); (split; [exact Hf|]);
      intros r; destruct o1; split; congruence.
  - intros [= <- <- <-]. left. do 2 eexists. split; [reflexivity|].
    rewrite sent_refl. repeat split; discriminate.
  - intros [= <- <- <-]. left. do 2 eexists. split; [reflexivity|].
    rewrite sent_refl. repeat split; discriminate.
Qed.

(** ramda's [clamp] on numbers, for a lower bound that does not exceed the
    upper one. *)
Lemma R_clamp_num (lo hi v : Z) :
  (lo ≤ hi)%Z →
  R_clamp (VNum lo) (VNum hi) (VNum v) = Ok (VNum (Z.max lo (Z.min hi v))).
Proof.
  intros Hm. unfold R_clamp, js_gt, js_lt. simpl.
  destruct (Z.ltb_spec hi lo); [lia|].
  destruct (Z.ltb_spec v lo); [do 2 f_equal; lia|].
  destruct (Z.ltb_spec hi v); do 2 f_equal; lia.
Qed.

(** The pagination lines on a numeric configuration: [$limit] becomes the
    requested limit, or the default, clamped between 0 and [max]. *)
Lemma limit_step_num paginate (q0 : gmap string value) (d m : Z) :
  get_prop paginate "default" = VNum d → d ≠ 0%Z →
  get_prop paginate "max" = VNum m → (0 ≤ m)%Z →
  (∀ v, q0 !! "$limit" = Some v → is_nullish v = true ∨ ∃ l, v = VNum l) →
  limit_step paginate (VObj q0)
  = (Ok (), VObj (<["$limit" := VNum (effective_limit d m (requested_limit q0))]> q0)).
Proof.
  intros Hd Hd0 Hm Hm0 Hl. unfold limit_step, read_prop, requested_limit.
  assert (is_nullish paginate = false) as ->
    by (destruct paginate; try discriminate; reflexivity).
  rewrite Hd, Hm. simpl.
  destruct (Z.eqb_spec d 0); [contradiction|]. simpl.
  destruct (q0 !! "$limit") as [v|] eqn:Hv; simpl.
  - destruct (Hl v eq_refl) as [Hn|[l ->]].
    + rewrite Hn. simpl. rewrite lookup_insert_eq. simpl.
      rewrite R_clamp_num, insert_insert_eq by assumption.
      destruct v; try discriminate; reflexivity.
    + simpl. rewrite Hv. simpl. rewrite R_clamp_num by assumption. reflexivity.
  - rewrite lookup_insert_eq. simpl.
    rewrite R_clamp_num, insert_insert_eq by assumption. reflexivity.
Qed.

(** The loop over [$select] on a query whose [$select] is an array or
    falsy. *)
Lemma collect_selected_array (q0 : gmap string value) :
  (∀ v, q0 !! "$select" = Some v → truthy v = false ∨ ∃ xs, v = VArr xs) →
  collect_selected (VObj q0)
  = Ok (selection q0,
        VObj (if truthy (get_prop (VObj q0) "$select")
              then delete "$select" q0 else q0)).
Proof.
  intros H. unfold collect_selected, read_prop, selection, get_prop. simpl.
  destruct (q0 !! "$select") as [v|] eqn:Hv; simpl; [|reflexivity].
  destruct (H v eq_refl) as [Hf|[xs ->]].
  - rewrite Hf. destruct v; try reflexivity. discriminate.
  - reflexivity.
Qed.

(** C5, as the code has it: for every [find] whose pagination config has a
    default that is an integer other than 0 and a max that is an integer not
    below 0, and whose [$limit] is absent, empty or an integer, the query
    object gets as [$limit] the requested limit, or the default when none is
    requested, clamped between 0 and max, before the statement is compiled.
    When that query compiles and the store answers with meta data, [find]
    sends exactly the statement compiled from the query with the clamped
    limit and resolves with the envelope whose [limit] is the clamped value;
    the caller's query is left with the clamped [$limit]. *)
Theorem find_clamps_limit params (q : gmap string value) (d m : Z) w
  str vals err results qd s' data :
  get_prop params "query" = VObj q →
  get_prop (paginate_of params) "default" = VNum d → d ≠ 0%Z →
  get_prop (paginate_of params) "max" = VNum m → (0 ≤ m)%Z →
  (∀ v, q !! "$limit" = Some v → is_nullish v = true ∨ ∃ l, v = VNum l) →
  (∀ v, q !! "$select" = Some v → truthy v = false ∨ ∃ xs, v = VArr xs) →
  let eff := effective_limit d m (requested_limit q) in
  let q' := delete "$consistency"
              (<["$limit" := VNum eff]> (<["_type" := VStr name]> q)) in
  let n := _buildN1QL str (or_null (get_prop (VObj q) "$consistency")) true in
  interpret ext (opt_bucket (this_opts this)) (VObj q') = Ok (str, vals) →
  bucket_query bucket n vals (store w) = ((err, results, qd), s') →
  is_nullish qd = false →
  is_nullish (get_prop qd "metrics") = false →
  (if (0 <? length (selection q))%nat
   then _stripKeys (selection q) results else Ok results) = Ok data →
  q' !! "$limit" = Some (VNum eff) ∧
  find params w
  = ((Resolved
        (VObj {[ "total" := get_prop (get_prop qd "metrics") "resultCount";
                 "limit" := VNum eff;
                 "skip" := if is_nullish (get_prop (VObj q) "$skip")
                           then VNum 0 else get_prop (VObj q) "$skip";
                 "data" := data ]}),
      VObj (if truthy (get_prop (VObj q) "$select")
            then delete "$select" q' else q')),
     mkWorld s' (drawn w) (calls w ++ [CQuery n vals])).
Proof.
  intros Hq Hd Hd0 Hm Hm0 Hl Hsel eff q' n Hi Hreply Hqd Hmet Hdata.
  assert (Hstep := limit_step_num (paginate_of params)
                     (<["_type" := VStr name]> q) d m Hd Hd0 Hm Hm0).
  rewrite lookup_insert_ne in Hstep by discriminate.
  specialize (Hstep Hl).
  replace (requested_limit (<["_type" := VStr name]> q)) with (requested_limit q)
    in Hstep by (unfold requested_limit; rewrite lookup_insert_ne by discriminate;
                 reflexivity).
  fold eff in Hstep.
  assert (Hlim : q' !! "$limit" = Some (VNum eff)).
  { unfold q'. rewrite lookup_delete_ne by discriminate. apply lookup_insert_eq. }
  split; [exact Hlim|].
  assert (Hkeep : ∀ k, k ≠ "$consistency" → k ≠ "$limit" → k ≠ "_type" →
                       q' !! k = q !! k).
  { intros k H1 H2 H3. unfold q'.
    rewrite lookup_delete_ne, !lookup_insert_ne by congruence. reflexivity. }
  assert (Hsel' : ∀ v, q' !! "$select" = Some v →
                       truthy v = false ∨ ∃ xs, v = VArr xs).
  { intros v. rewrite Hkeep by discriminate. apply Hsel. }
  assert (Hsn : selection q' = selection q)
    by (unfold selection; rewrite Hkeep by discriminate; reflexivity).
  assert (Hst : get_prop (VObj q') "$select" = get_prop (VObj q) "$select")
    by (unfold get_prop; rewrite Hkeep by discriminate; reflexivity).
  destruct (find params w) as [[o qf] w'] eqn:Hf.
  destruct (find_object params q w o qf w' Hq Hf)
    as [(e & query' & He & Hne & _)|(u & q1 & o1 & He & H_find & Hres)];
    rewrite Hstep in He.
  { injection He as <- _. exfalso. exact (Hne () eq_refl). }
  injection He as _ <-.
  assert (Hcons : get_prop (VObj (<["$limit" := VNum eff]> (<["_type" := VStr name]> q)))
                    "$consistency" = get_prop (VObj q) "$consistency").
  { unfold get_prop. rewrite !lookup_insert_ne by discriminate. reflexivity. }
  rewrite Hcons in H_find. fold q' in H_find.
  unfold _find in H_find. cbv zeta in H_find. rewrite Hi in H_find.
  rewrite (collect_selected_array q' Hsel'), Hsn, Hst in H_find.
  unfold call_query in H_find. run. fold n in H_find. rewrite Hreply in H_find.
  simpl in H_find. unfold query_callback, read_prop in H_find.
  rewrite Hdata in H_find.
  assert (is_nullish (paginate_of params) = false) as Hpn
    by (destruct (paginate_of params); try discriminate; reflexivity).
  rewrite Hpn, Hd in H_find. simpl in H_find.
  destruct (Z.eqb_spec d 0); [contradiction|]. simpl in H_find.
  unfold envelope, read_prop in H_find. rewrite Hqd, Hmet in H_find.
  assert (Hskip : ∀ qq : gmap string value,
            (qq = q' ∨ qq = delete "$select" q') →
            get_prop (VObj qq) "$skip" = get_prop (VObj q) "$skip" ∧
            get_prop (VObj qq) "$limit" = VNum eff).
  { intros qq [->| ->]; unfold get_prop;
      rewrite ?(lookup_delete_ne _ "$select") by discriminate;
      rewrite Hlim, Hkeep by discriminate; auto. }
  change (get_prop (VObj q) "$select")
    with (default VUndefined (q !! "$select")) in *.
  destruct (truthy (default VUndefined (q !! "$select")));
    [destruct (Hskip (delete "$select" q') ltac:(auto)) as [Hs1 Hs2]
    |destruct (Hskip q' ltac:(auto)) as [Hs1 Hs2]];
    rewrite Hs1, Hs2 in H_find; injection H_find as <- <- <-;
    (assert (o = Resolved
                   (VObj {[ "total" := get_prop (get_prop qd "metrics") "resultCount";
                            "limit" := VNum eff;
                            "skip" := if is_nullish (get_prop (VObj q) "$skip")
                                      then VNum 0 else get_prop (VObj q) "$skip";
                            "data" := data ]})) as ->
       by (apply Hres; reflexivity)); reflexivity.
Qed.

(** ** Projection *)

Lemma index_of_found_names (names : list string) k :
  index_of_found (VStr <$> names) k ↔ k ∈ names.
Proof.
  unfold index_of_found. induction names as [|a names IH]; simpl.
  - rewrite elem_of_nil. tauto.
  - rewrite elem_of_cons, orb_True, IH.
    destruct (String.eqb_spec a k); simpl; intuition congruence.
Qed.

(** [_stripKeys] on a list of field names computes the restriction of each
    row to those names. *)
Lemma strip_row_names (names : list string) row :
  strip_row (VStr <$> names) row = VObj (restriction names (own_enumerable row)).
Proof.
  unfold strip_row, restriction. f_equal.
  apply map_filter_ext. intros k x _. simpl. apply index_of_found_names.
Qed.

Lemma restriction_lookup (names : list string) (row : gmap string value) k :
  restriction names row !! k = if decide (k ∈ names) then row !! k else None.
Proof.
  unfold restriction. rewrite map_lookup_filter.
  destruct (row !! k) as [x|]; simpl; [|destruct (decide _); reflexivity].
  destruct (decide (k ∈ names)); [rewrite option_guard_True|rewrite option_guard_False];
    done.
Qed.

Lemma _stripKeys_ok selected results v :
  _stripKeys selected results = Ok v →
  ∃ rows, results = VArr rows ∧ v = VArr (strip_row selected <$> rows).
Proof.
  destruct results; try discriminate. intros [= <-]. eauto.
Qed.

(** C8, as the code has it: for every [find] whose query has as [$select] a
    list of field names that is not empty, the rows [find] resolves with are
    the rows the store answered to the statement sent, each restricted to
    the selected names: a selected field of the row is kept with its value,
    every other field is gone, and a selected field the row does not have is
    not added. *)
Theorem find_select_restricts params (q : gmap string value)
  (names : list string) w r qf w' :
  get_prop params "query" = VObj q →
  q !! "$select" = Some (VArr (VStr <$> names)) →
  names ≠ [] →
  find params w = (Resolved r, qf, w') →
  ∃ n vals rows,
    sent w w' = [CQuery n vals] ∧
    (bucket_query bucket n vals (store w)).1.1.2 = VArr rows ∧
    returned_rows (paginate_of params) r
    = VArr ((λ row, VObj (restriction names (own_enumerable row))) <$> rows) ∧
    ∀ (row : gmap string value) k,
      restriction names row !! k = if decide (k ∈ names) then row !! k else None.
Proof.
  intros Hq Hsel Hne Hf.
  destruct (find_object params q w _ qf w' Hq Hf)
    as [(e & query' & _ & _ & _ & _ & Hno)|(u & q1 & o1 & He & H_find & Hres)].
  { exfalso. exact (Hno r eq_refl). }
  assert (o1 = Resolved r) as -> by (apply Hres; reflexivity).
  assert (Hs1 : delete "$consistency" q1 !! "$select" = Some (VArr (VStr <$> names))).
  { rewrite lookup_delete_ne by discriminate.
    destruct (limit_step_ok _ _ _ _ He) as [[_ [= ->]]|[_ (l & _ & [= ->])]];
      rewrite !lookup_insert_ne by discriminate; exact Hsel. }
  destruct (_find_cases _ _ _ _ _ _ _ H_find)
    as [(_ & _ & Hno)|(str & vals & sel & _ & Hc & Hs & Ho)].
  { exfalso. exact (Hno r eq_refl). }
  destruct (collect_selected_object _ _ _ Hc) as [(Ht & _)|(_ & Hit & _)];
    unfold get_prop in *; rewrite Hs1 in *; simpl in *; [discriminate|].
  injection Hit as <-. symmetry in Ho.
  apply query_callback_resolved in Ho as [Ho _].
  rewrite length_fmap in Ho.
  destruct names as [|a names]; [contradiction|]. simpl in Ho.
  apply _stripKeys_ok in Ho as (rows & Hrows & Hr).
  exists (_buildN1QL str (or_null (default VUndefined (q1 !! "$consistency"))) true),
         vals, rows.
  split; [exact Hs|]. split; [exact Hrows|]. split; [|apply restriction_lookup].
  rewrite Hr. f_equal. apply list_fmap_ext. intros _ row _.
  apply (strip_row_names (a :: names)).
Qed.

(** ** The caller's query object after [find] *)

Lemma truthy_get_prop_Some (q : gmap string value) k :
  truthy (get_prop (VObj q) k) = true → is_Some (q !! k).
Proof. simpl. destruct (q !! k); [eauto|discriminate]. Qed.

(** C10, as the code has it: [find] works on the caller's query object
    itself.  When it resolves, the object it leaves is the one passed in
    with [_type] set to the collection name, [$limit] overwritten with the
    defaulted and clamped value when pagination applies, [$consistency]
    deleted, and [$select] deleted when it held a truthy value.  That object
    equals the one passed in exactly when the latter already had [_type]
    equal to the collection name, no [$consistency], no truthy [$select],
    and a [$limit] that pagination leaves as it is. *)
Theorem find_mutates_query params (q : gmap string value) w r qf w' :
  get_prop params "query" = VObj q →
  find params w = (Resolved r, qf, w') →
  ∃ q1 : gmap string value,
    ((truthy (get_prop (paginate_of params) "default") = false ∧
      q1 = <["_type" := VStr name]> q) ∨
     (truthy (get_prop (paginate_of params) "default") = true ∧
      ∃ l, R_clamp (VNum 0) (get_prop (paginate_of params) "max")
             (if is_nullish (get_prop (VObj q) "$limit")
              then get_prop (paginate_of params) "default"
              else get_prop (VObj q) "$limit") = Ok l ∧
           q1 = <["$limit" := l]> (<["_type" := VStr name]> q))) ∧
    qf = VObj (if truthy (get_prop (VObj q) "$select")
               then delete "$select" (delete "$consistency" q1)
               else delete "$consistency" q1) ∧
    (qf = VObj q ↔
       q !! "_type" = Some (VStr name) ∧ q !! "$consistency" = None ∧
       truthy (get_prop (VObj q) "$select") = false ∧
       q1 !! "$limit" = q !! "$limit").
Proof.
  intros Hq Hf.
  destruct (find_object params q w _ qf w' Hq Hf)
    as [(e & query' & _ & _ & _ & _ & Hno)|(u & q1 & o1 & He & H_find & Hres)].
  { exfalso. exact (Hno r eq_refl). }
  assert (o1 = Resolved r) as -> by (apply Hres; reflexivity).
  exists q1.
  assert (Hshape := limit_step_ok _ _ _ _ He).
  assert (Hlim : get_prop (VObj (<["_type" := VStr name]> q)) "$limit"
                 = get_prop (VObj q) "$limit")
    by (unfold get_prop; rewrite lookup_insert_ne by discriminate; reflexivity).
  rewrite Hlim in Hshape. clear Hlim.
  assert (Hother : ∀ k, k ≠ "$limit" → q1 !! k = <["_type" := VStr name]> q !! k).
  { intros k Hk.
    destruct Hshape as [[_ [= ->]]|[_ (l & _ & [= ->])]]; [reflexivity|].
    rewrite (lookup_insert_ne _ "$limit") by congruence. reflexivity. }
  assert (Hsel : get_prop (VObj (delete "$consistency" q1)) "$select"
                 = get_prop (VObj q) "$select").
  { unfold get_prop. rewrite lookup_delete_ne, Hother, lookup_insert_ne by discriminate.
    reflexivity. }
  assert (Hqf : qf = VObj (if truthy (get_prop (VObj q) "$select")
                           then delete "$select" (delete "$consistency" q1)
                           else delete "$consistency" q1)).
  { destruct (_find_cases _ _ _ _ _ _ _ H_find)
      as [(_ & _ & Hno)|(str & vals & sel & _ & Hc & _ & _)].
    { exfalso. exact (Hno r eq_refl). }
    destruct (collect_selected_object _ _ _ Hc) as [(Ht & _ & ->)|(Ht & _ & ->)];
      rewrite Hsel in Ht; rewrite Ht; reflexivity. }
  split.
  { destruct Hshape as [[Ht [= ->]]|[Ht (l & Hl & [= ->])]]; [left|right]; eauto. }
  split; [exact Hqf|]. rewrite Hqf. clear Hqf H_find Hf Hres He Hsel.
  split.
  - intros [= Heq].
    assert (Hk : ∀ k, q !! k
                 = (if truthy (get_prop (VObj q) "$select")
                    then delete "$select" (delete "$consistency" q1)
                    else delete "$consistency" q1) !! k)
      by (intros k; exact (f_equal (λ m : gmap string value, m !! k) (eq_sym Heq))).
    assert (Hts : truthy (get_prop (VObj q) "$select") = false).
    { destruct (truthy (get_prop (VObj q) "$select")) eqn:Ht; [|reflexivity].
      apply truthy_get_prop_Some in Ht as [v Hv].
      rewrite Hk, lookup_delete_eq in Hv. discriminate. }
    rewrite Hts in Hk.
    repeat split.
    + rewrite Hk, lookup_delete_ne, Hother, lookup_insert_eq by discriminate.
      reflexivity.
    + rewrite Hk. apply lookup_delete_eq.
    + exact Hts.
    + rewrite (Hk "$limit"), lookup_delete_ne by discriminate. reflexivity.
  - intros (Hty & Hco & Hts & Hli). rewrite Hts. f_equal.
    assert (q1 = q) as ->.
    { apply map_eq. intros k. destruct (decide (k = "$limit")) as [->|Hk].
      - exact Hli.
      - rewrite Hother, insert_id by assumption. reflexivity. }
    apply delete_id. exact Hco.
Qed.

(** ** Further properties of the methods *)

(** X1: Two ids give the same key exactly when [join] prints them alike: keys
    separate the ids as strings, so the number 1 and the string ['1'] share
    a key, and so do [undefined], [null] and the empty string. *)
Theorem _key_same_iff a b :
  _key a = _key b ↔ join_element a = join_element b.
Proof.
  rewrite !_key_eq. split.
  - intros H. apply String.app_inj in H. apply String.app_inj in H. exact H.
  - intros ->. reflexivity.
Qed.

(** X5: What [get] does, read off the store's answer [(err, element)] to the one
    request it sends, the get at the key of [id]: it rejects with [NotFound]
    exactly when [err] carries the missing-key code or there is no error and
    no element; it rejects with [err] itself exactly when [err] is another
    error; it resolves exactly when there is no error and an element, with
    [element.value] when that is truthy and with the element otherwise.  It
    draws no identifier and never stays pending. *)
Theorem get_outcome id params w :
  let reply := bucket_get bucket (_key id) (store w) in
  let err := reply.1.1 in
  let element := reply.1.2 in
  let o := (get id params w).1 in
  sent w (get id params w).2 = [CGet (_key id)] ∧
  drawn (get id params w).2 = drawn w ∧
  store (get id params w).2 = reply.2 ∧
  (∀ msg, o = Rejected (NotFound msg) ↔
     msg = "Does not exist" ∧
     (truthy err = true ∧ strict_eq (get_prop err "code") (keyNotFound ext) = true
      ∨ truthy err = false ∧ is_nullish element = true)) ∧
  (∀ v, o = Rejected (Thrown v) ↔
     v = err ∧ truthy err = true ∧
     strict_eq (get_prop err "code") (keyNotFound ext) = false) ∧
  (∀ v, o = Resolved v ↔
     truthy err = false ∧ is_nullish element = false ∧
     v = js_or (get_prop element "value") element) ∧
  (∀ v, o = Resolved v → is_nullish v = false) ∧
  o ≠ Pending ∧ o ≠ Unmodelled ∧
  (∀ msg, o ≠ Rejected (BadRequest msg)) ∧
  (∀ msg, o ≠ Rejected (TypeError msg)) ∧
  (∀ msg, o ≠ Rejected (PlainError msg)).
Proof.
  simpl. rewrite get_eq. simpl.
  split; [apply sent_app; reflexivity|]. do 2 (split; [reflexivity|]).
  set (err := (bucket_get bucket (_key id) (store w)).1.1).
  set (element := (bucket_get bucket (_key id) (store w)).1.2).
  assert (Hnn := get_callback_not_nullish err element).
  unfold get_callback in *.
  destruct (truthy err); [destruct (strict_eq _ _)|destruct (is_nullish element)];
    repeat split; try discriminate; intros; intuition (subst; try congruence); eauto.
Qed.

(** X6: [_id] settles the id of an object once: called again on the object it
    left, it returns the same id, changes nothing and draws nothing.  A
    first call draws an identifier only when the id field is missing; an id
    field that is present is returned as it is, also when it holds [null] or
    [undefined]. *)
Theorem _id_idempotent data w idv data' w' :
  _id data w = (Ok (idv, data'), w') →
  _id data' w' = (Ok (idv, data'), w') ∧
  get_prop data' (this_id this) = idv ∧
  (drawn w' = drawn w ∧ data' = data ∨
   drawn w' = S (drawn w) ∧ idv = VStr (uuid ext (drawn w)) ∧
   has_prop (this_id this) data = Ok false).
Proof.
  destruct data as [| | | | | |d];
    try (unfold _id, has_prop; run; discriminate).
  rewrite _id_object.
  destruct (d !! this_id this) as [v|] eqn:Hl.
  - intros [= <- <- <-]. rewrite _id_object, Hl. simpl. rewrite Hl. auto.
  - intros [= <- <- <-]. rewrite _id_object, lookup_insert_eq. simpl.
    rewrite lookup_insert_eq. split; [reflexivity|]. split; [reflexivity|].
    right. repeat split. rewrite bool_decide_eq_false_2; [reflexivity|].
    intros [? ?]. congruence.
Qed.

(** [get]'s callback rejects with [NotFound] or with the store's error,
    nothing else. *)
Lemma get_callback_kind err element e :
  get_callback err element = Rejected e →
  (e = NotFound "Does not exist" ∨ e = Thrown err) ∧
  match e with BadRequest _ | TypeError _ | PlainError _ => False | _ => True end.
Proof.
  unfold get_callback.
  destruct (truthy err); [destruct (strict_eq _ _)|destruct (is_nullish element)];
    try discriminate; intros [= <-]; auto.
Qed.

(** X7: [create] checks its payload before it sends anything: it rejects with
    [BadRequest] exactly when the payload is [null] or [undefined], and with
    a [TypeError] exactly when the payload is a boolean, a number or a
    string; in both cases nothing is sent to the store and no identifier is
    drawn. *)
Theorem create_rejects_bad_payload data params w :
  ((∃ msg, (create data params w).1 = Rejected (BadRequest msg))
   ↔ is_nullish data = true) ∧
  ((∃ msg, (create data params w).1 = Rejected (TypeError msg))
   ↔ is_primitive data = true) ∧
  (is_nullish data = true ∨ is_primitive data = true →
   (create data params w).2 = w).
Proof.
  destruct data as [| |b|n|s|xs|d]; simpl;
    try (unfold create; run; repeat split; try (intros [? ?]); try discriminate;
         eauto; intros [|]; discriminate).
  rewrite create_eq, get_eq. simpl.
  repeat split; try discriminate.
  - intros [msg H]. exfalso. eapply get_callback_kind in H as [_ H]. exact H.
  - intros [msg H]. exfalso. eapply get_callback_kind in H as [_ H]. exact H.
  - intros [|]; discriminate.
Qed.

(** X8: [create] on an object over a store that hands back what was inserted:
    it resolves with the document it inserted, which is the payload with
    [_type] set to the collection name and, when the payload had no id
    field, with a fresh identifier in it; every other field is the
    payload's. *)
Theorem create_returns_inserted (d : gmap string value) params w err element :
  let d1 := <["_type" := VStr name]> d in
  let idv := default (VStr (uuid ext (drawn w))) (d1 !! this_id this) in
  let doc := if d1 !! this_id this is Some _ then d1
             else <[this_id this := idv]> d1 in
  (bucket_get bucket (_key idv)
     (bucket_insert bucket (_key idv) (VObj doc) (store w)).2).1 = (err, element) →
  truthy err = false →
  get_prop element "value" = VObj doc →
  (create (VObj d) params w).1 = Resolved (VObj doc) ∧
  sent w (create (VObj d) params w).2
  = [CInsert (_key idv) (VObj doc); CGet (_key idv)] ∧
  doc !! "_type" = Some (VStr name) ∧
  doc !! this_id this = Some idv ∧
  (∀ k, k ≠ "_type" → k ≠ this_id this → doc !! k = d !! k).
Proof.
  intros d1 idv doc Hget Herr Hval.
  pose proof (create_eq d params w) as Hc. simpl in Hc.
  fold d1 idv doc in Hc. rewrite Hc. clear Hc.
  split.
  { rewrite get_eq. simpl. unfold call_insert. simpl.
    destruct (bucket_insert bucket (_key idv) (VObj doc) (store w)) as [r s1].
    simpl in *. rewrite Hget. simpl. unfold get_callback. rewrite Herr.
    assert (is_nullish element = false) as ->
      by (destruct element; try discriminate; reflexivity).
    rewrite Hval. reflexivity. }
  split.
  { apply sent_app. rewrite get_calls, call_insert_calls, <- app_assoc. reflexivity. }
  unfold doc, idv, d1.
  destruct (<["_type" := VStr name]> d !! this_id this) as [v|] eqn:Hl; simpl.
  - split; [apply lookup_insert_eq|]. split; [exact Hl|].
    intros k Hk _. apply lookup_insert_ne. congruence.
  - assert (this_id this ≠ "_type")
      by (intros Heq; rewrite Heq, lookup_insert_eq in Hl; discriminate).
    split; [rewrite lookup_insert_ne by assumption; apply lookup_insert_eq|].
    split; [apply lookup_insert_eq|].
    intros k Hk Hk'. rewrite !lookup_insert_ne by congruence. reflexivity.
Qed.

(** X9: When [get] cannot read the id, [patch] and [update] never settle: the
    rejection of [get], [NotFound] included, is not passed on.  Nothing but
    the one get is sent; in particular nothing is written. *)
Theorem patch_hangs_on_unreadable_id id data params w e :
  (get id params w).1 = Rejected e →
  patch id data params w = (Pending, (get id params w).2) ∧
  update id data params w = (Pending, (get id params w).2) ∧
  sent w (patch id data params w).2 = [CGet (_key id)] ∧
  sent w (update id data params w).2 = [CGet (_key id)].
Proof.
  intros Hg.
  assert (Hp : patch id data params w = (Pending, (get id params w).2)).
  { unfold patch. run. destruct (get id params w) as [o w1]. simpl in *.
    subst o. reflexivity. }
  assert (Hu : update id data params w = (Pending, (get id params w).2)).
  { unfold update. run. rewrite Hp. reflexivity. }
  rewrite Hp, Hu. simpl. repeat split; apply sent_app, get_calls.
Qed.

(** X10: When [get] cannot read the id, [remove] rejects with the very rejection
    of [get] ([NotFound] for a missing key, the store's error otherwise) and
    sends no remove. *)
Theorem remove_rejects_on_unreadable_id id params w e :
  (get id params w).1 = Rejected e →
  remove id params w = (Rejected e, (get id params w).2) ∧
  sent w (remove id params w).2 = [CGet (_key id)].
Proof.
  intros Hg.
  assert (Hr : remove id params w = (Rejected e, (get id params w).2)).
  { unfold remove. run. destruct (get id params w) as [o w1]. simpl in *.
    subst o. reflexivity. }
  rewrite Hr. split; [reflexivity|]. apply sent_app, get_calls.
Qed.

(** X11: [update] does to the store exactly what [patch] does, and resolves
    exactly when [patch] resolves, with the same value; it never rejects:
    where [patch] rejects, [update] stays pending. *)
Theorem update_follows_patch id data params w :
  (update id data params w).2 = (patch id data params w).2 ∧
  (∀ r, (update id data params w).1 = Resolved r
        ↔ (patch id data params w).1 = Resolved r) ∧
  (∀ e, (update id data params w).1 ≠ Rejected e) ∧
  ((update id data params w).1 = Pending
   ↔ (patch id data params w).1 = Pending
     ∨ ∃ e, (patch id data params w).1 = Rejected e).
Proof.
  unfold update. run.
  destruct (patch id data params w) as [[r|e| |] w']; simpl;
    repeat split; try discriminate; try tauto; eauto;
    try (intros [|[? ?]]; discriminate).
Qed.

(** ** Further properties of [find] *)

Lemma query_callback_not_rejected sel paginate query results qd e :
  query_callback sel paginate query results qd ≠ Rejected e.
Proof.
  unfold query_callback.
  destruct (if (0 <? length sel)%nat then _ else _); try discriminate.
  destruct (read_prop paginate "default"); try discriminate.
  destruct (negb _); try discriminate.
  destruct (envelope _ _ _); discriminate.
Qed.

Lemma _find_drawn query paginate consistency w :
  drawn (_find query paginate consistency w).2 = drawn w.
Proof.
  unfold _find. run.
  destruct (interpret _ _ _) as [[str vals]| |]; try reflexivity.
  destruct (collect_selected query) as [[sel query']| |]; try reflexivity.
  unfold call_query. destruct (bucket_query _ _ _ _) as [[[? ?] ?] ?].
  reflexivity.
Qed.

Lemma _find_unsent query paginate consistency w o qf w' :
  _find query paginate consistency w = (o, qf, w') →
  sent w w' = [] → w' = w.
Proof.
  unfold _find. run.
  destruct (interpret _ _ _) as [[str vals]| |];
    [destruct (collect_selected _) as [[sel query']| |]|..];
    try (intros [= _ _ <-]; reflexivity).
  unfold call_query. destruct (bucket_query _ _ _ _) as [[[? ?] ?] ?].
  intros [= _ _ <-]. unfold sent. simpl. rewrite drop_app_length. discriminate.
Qed.

Lemma limit_step_throws_kind paginate query e query' :
  limit_step paginate query = (Throws e, query') →
  (∃ msg, e = TypeError msg) ∨
  e = PlainError "min must not be greater than max in clamp(min, max, value)".
Proof.
  unfold limit_step, read_prop.
  destruct (is_nullish paginate); [intros [= <- _]; eauto|].
  destruct (truthy (get_prop paginate "default")); [|discriminate].
  match goal with
  | |- context [R_clamp ?a ?b ?c] => destruct (R_clamp a b c) eqn:Hc
  end; try discriminate.
  intros [= <- _]. right. eapply R_clamp_throws, Hc.
Qed.

(** The two ways a [find] goes: it stops before anything is sent and does
    not resolve, or it gets to the store with the one statement compiled
    from the prepared query and settles as the callback decides. *)
Lemma find_path params w o qf w' :
  find params w = (o, qf, w') →
  (w' = w ∧ ∀ r, o ≠ Resolved r) ∨
  (∃ (q q1 : gmap string value) u str vals sel,
     get_prop params "query" = VObj q ∧
     limit_step (paginate_of params) (VObj (<["_type" := VStr name]> q))
     = (Ok u, VObj q1) ∧
     interpret ext (opt_bucket (this_opts this)) (VObj (delete "$consistency" q1))
     = Ok (str, vals) ∧
     collect_selected (VObj (delete "$consistency" q1)) = Ok (sel, qf) ∧
     sent w w'
     = [CQuery (_buildN1QL str (or_null (get_prop (VObj q1) "$consistency")) true)
               vals] ∧
     drawn w' = drawn w ∧
     o = query_callback sel (paginate_of params) qf
           (bucket_query bucket
              (_buildN1QL str (or_null (get_prop (VObj q1) "$consistency")) true)
              vals (store w)).1.1.2
           (bucket_query bucket
              (_buildN1QL str (or_null (get_prop (VObj q1) "$consistency")) true)
              vals (store w)).1.2).
Proof.
  intros Hf.
  destruct (get_prop params "query") as [| | | | | |q] eqn:Hq.
  1-6: left; unfold find in Hf; rewrite Hq in Hf;
       destruct (is_nullish params); simpl in Hf; run;
       injection Hf as <- <- <-; (split; [reflexivity|discriminate]).
  destruct (find_object params q w o qf w' Hq Hf)
    as [(e & query' & He & Hne & _ & _ & Hno)|(u & q1 & o1 & He & H_find & Hres)].
  - left. split; [|exact Hno].
    unfold find in Hf.
    assert (is_nullish params = false) as Hp by (destruct params; done).
    rewrite Hp, Hq in Hf. simpl in Hf. rewrite He in Hf.
    destruct e as [u| |]; [exfalso; exact (Hne u eq_refl)|..]; run;
      congruence.
  - pose proof (_find_drawn (VObj (delete "$consistency" q1)) (paginate_of params)
                  (get_prop (VObj q1) "$consistency") w) as Hd.
    rewrite H_find in Hd. simpl in Hd.
    destruct (_find_cases _ _ _ _ _ _ _ H_find)
      as [(Hs & -> & Hno)|(str & vals & sel & Hi & Hsel & Hs & Ho)].
    + (* the query builder or the selection loop threw: nothing was sent *)
      left. split.
      * eapply _find_unsent; eassumption.
      * intros r Hr. apply Hres in Hr. exact (Hno r Hr).
    + right. exists q, q1, u, str, vals, sel.
      assert (o = o1) as ->.
      { destruct o1 as [r|e| |].
        - apply Hres. reflexivity.
        - exfalso. symmetry in Ho. exact (query_callback_not_rejected _ _ _ _ _ _ Ho).
        - unfold find in Hf.
          assert (is_nullish params = false) as Hp by (destruct params; done).
          rewrite Hp, Hq in Hf. simpl in Hf. rewrite He in Hf. run.
          rewrite H_find in Hf. congruence.
        - unfold find in Hf.
          assert (is_nullish params = false) as Hp by (destruct params; done).
          rewrite Hp, Hq in Hf. simpl in Hf. rewrite He in Hf. run.
          rewrite H_find in Hf. congruence. }
      repeat (split; [first [reflexivity|assumption]|]). exact Ho.
Qed.

Lemma limit_step_other paginate (q0 q1 : gmap string value) u k :
  limit_step paginate (VObj q0) = (Ok u, VObj q1) →
  k ≠ "$limit" → q1 !! k = q0 !! k.
Proof.
  intros He Hk.
  destruct (limit_step_ok _ _ _ _ He) as [[_ [= ->]]|[_ (l & _ & [= ->])]];
    [reflexivity|].
  apply lookup_insert_ne. congruence.
Qed.

Lemma strict_eq_trans a b c :
  strict_eq a b = true → strict_eq a c = true → strict_eq b c = true.
Proof.
  destruct a, b; try discriminate; destruct c; try discriminate; simpl; try done.
  - destruct b0, b, b1; done.
  - rewrite !Z.eqb_eq. congruence.
  - rewrite !String.eqb_eq. congruence.
Qed.

(** X12: Whatever the params, [find] sends at most one request to the store, and
    that request is a query marked read-only; it never gets, inserts,
    replaces or removes, and it draws no identifier. *)
Theorem find_sends_one_readonly_query params w :
  Forall readonly_query (sent w (find params w).2) ∧
  length (sent w (find params w).2) ≤ 1 ∧
  drawn (find params w).2 = drawn w.
Proof.
  destruct (find params w) as [[o qf] w'] eqn:Hf. simpl.
  destruct (find_path _ _ _ _ _ Hf)
    as [[-> _]|(q & q1 & u & str & vals & sel & _ & _ & _ & _ & Hs & Hd & _)].
  - rewrite sent_refl. simpl. auto.
  - rewrite Hs. simpl. repeat split; auto. repeat constructor.
Qed.

(** X13: The statement [find] sends is the one the query builder compiles from
    the caller's query once [_type] is set to the collection name and
    [$consistency] is taken out: apart from [_type], [$consistency] and
    [$limit], every key, [$select] included, reaches the builder as the
    caller wrote it.  The request built from it carries the consistency that
    [_buildN1QL] reads off the caller's [$consistency], or off [null] when
    the caller gave none. *)
Theorem find_compiles_prepared_query params w n vals :
  sent w (find params w).2 = [CQuery n vals] →
  ∃ (q q' : gmap string value) str,
    get_prop params "query" = VObj q ∧
    interpret ext (opt_bucket (this_opts this)) (VObj q') = Ok (str, vals) ∧
    q' !! "_type" = Some (VStr name) ∧
    q' !! "$consistency" = None ∧
    (∀ k, k ≠ "_type" → k ≠ "$consistency" → k ≠ "$limit" → q' !! k = q !! k) ∧
    n = _buildN1QL str (or_null (get_prop (VObj q) "$consistency")) true.
Proof.
  destruct (find params w) as [[o qf] w'] eqn:Hf. simpl. intros Hsent.
  destruct (find_path _ _ _ _ _ Hf)
    as [[-> _]|(q & q1 & u & str & vals' & sel & Hq & He & Hi & _ & Hs & _ & _)].
  { rewrite sent_refl in Hsent. discriminate. }
  rewrite Hs in Hsent. injection Hsent as <- <-.
  exists q, (delete "$consistency" q1), str.
  split; [exact Hq|]. split; [exact Hi|].
  split; [rewrite lookup_delete_ne by discriminate;
          rewrite (limit_step_other _ _ _ _ _ He) by discriminate;
          apply lookup_insert_eq|].
  split; [apply lookup_delete_eq|].
  split.
  - intros k H1 H2 H3. rewrite lookup_delete_ne by congruence.
    rewrite (limit_step_other _ _ _ _ _ He) by assumption.
    apply lookup_insert_ne. congruence.
  - unfold get_prop. rewrite (limit_step_other _ _ _ _ _ He) by discriminate.
    rewrite lookup_insert_ne by discriminate. reflexivity.
Qed.

(** X14: With three [QueryConsistency] constants that differ from one another, a
    [$consistency] equal to one of them reaches the store as the setting of
    that name, and any other value leaves the store's default.  A missing
    [$consistency] reaches [_buildN1QL] as [null], the default of [_find]'s
    parameter: it leaves the store's default when no constant is [null] or
    [undefined]. *)
Theorem find_forwards_consistency params (q : gmap string value) w n vals :
  strict_eq (QC_NOT_BOUNDED ext) (QC_REQUEST_PLUS ext) = false →
  strict_eq (QC_NOT_BOUNDED ext) (QC_STATEMENT_PLUS ext) = false →
  strict_eq (QC_REQUEST_PLUS ext) (QC_STATEMENT_PLUS ext) = false →
  get_prop params "query" = VObj q →
  sent w (find params w).2 = [CQuery n vals] →
  let c := or_null (get_prop (VObj q) "$consistency") in
  (strict_eq c (QC_NOT_BOUNDED ext) = true →
   n1ql_consistency n = Some NOT_BOUNDED) ∧
  (strict_eq c (QC_REQUEST_PLUS ext) = true →
   n1ql_consistency n = Some REQUEST_PLUS) ∧
  (strict_eq c (QC_STATEMENT_PLUS ext) = true →
   n1ql_consistency n = Some STATEMENT_PLUS) ∧
  (strict_eq c (QC_NOT_BOUNDED ext) = false →
   strict_eq c (QC_REQUEST_PLUS ext) = false →
   strict_eq c (QC_STATEMENT_PLUS ext) = false →
   n1ql_consistency n = None) ∧
  (q !! "$consistency" = None →
   is_nullish (QC_NOT_BOUNDED ext) = false →
   is_nullish (QC_REQUEST_PLUS ext) = false →
   is_nullish (QC_STATEMENT_PLUS ext) = false →
   c = VNull ∧ n1ql_consistency n = None).
Proof.
  intros H12 H13 H23 Hq Hsent c.
  destruct (find params w) as [[o qf] w'] eqn:Hf. simpl in Hsent.
  destruct (find_path _ _ _ _ _ Hf)
    as [[-> _]|(q0 & q1 & u & str & vals' & sel & Hq0 & He & _ & _ & Hs & _ & _)].
  { rewrite sent_refl in Hsent. discriminate. }
  rewrite Hs in Hsent. injection Hsent as <- <-.
  rewrite Hq in Hq0. injection Hq0 as <-.
  assert (Hc : q1 !! "$consistency" = q !! "$consistency").
  { rewrite (limit_step_other _ _ _ _ _ He) by discriminate.
    apply lookup_insert_ne. discriminate. }
  unfold _buildN1QL. simpl n1ql_consistency. unfold get_prop. rewrite Hc.
  change (or_null (default VUndefined (q !! "$consistency"))) with c.
  assert (Hnull : ∀ x, is_nullish x = false → strict_eq VNull x = false)
    by (intros x Hx; destruct x; try reflexivity; discriminate).
  split; [|split; [|split; [|split]]].
  - intros E1. rewrite E1. reflexivity.
  - intros E2. destruct (strict_eq c (QC_NOT_BOUNDED ext)) eqn:E1.
    + pose proof (strict_eq_trans _ _ _ E1 E2). congruence.
    + rewrite E2. reflexivity.
  - intros E3. destruct (strict_eq c (QC_NOT_BOUNDED ext)) eqn:E1.
    + pose proof (strict_eq_trans _ _ _ E1 E3). congruence.
    + destruct (strict_eq c (QC_REQUEST_PLUS ext)) eqn:E2.
      * pose proof (strict_eq_trans _ _ _ E2 E3). congruence.
      * rewrite E3. reflexivity.
  - intros E1 E2 E3. rewrite E1, E2, E3. reflexivity.
  - intros Hnone N1 N2 N3.
    assert (c = VNull) as Hcn by (unfold c, get_prop; rewrite Hnone; reflexivity).
    split; [exact Hcn|].
    rewrite Hcn, (Hnull _ N1), (Hnull _ N2), (Hnull _ N3). reflexivity.
Qed.

(** X15: [find] rejects only before it sends anything, and only with
    [BadRequest], with a [TypeError] of the runtime or with the error of
    [R.clamp]: an error of the query builder or of the store never comes
    back as a rejection. *)
Theorem find_rejects_before_sending params w e :
  (find params w).1.1 = Rejected e →
  ((∃ msg, e = BadRequest msg) ∨ (∃ msg, e = TypeError msg) ∨
   e = PlainError "min must not be greater than max in clamp(min, max, value)") ∧
  (find params w).2 = w.
Proof.
  intros H.
  destruct (find params w) as [[o qf] w'] eqn:Hf. simpl in *. subst o.
  destruct (find_path _ _ _ _ _ Hf)
    as [[-> _]|(q & q1 & u & str & vals & sel & _ & _ & _ & _ & _ & _ & Ho)];
    [|exfalso; symmetry in Ho; exact (query_callback_not_rejected _ _ _ _ _ _ Ho)].
  split; [|reflexivity].
  unfold find in Hf.
  destruct (is_nullish params); [injection Hf as <- _; eauto|].
  destruct (is_nullish (get_prop params "query")); [injection Hf as <- _; eauto|].
  destruct (set_prop (get_prop params "query") "_type" (VStr name))
    as [query| |] eqn:Hs; run.
  - match type of Hf with
    | context [limit_step ?p ?x] =>
        destruct (limit_step p x) as [[[]| |] query'] eqn:Hl
    end; simpl in Hf.
    + destruct (_find _ _ _ w) as [[[| | |] ?] ?]; discriminate.
    + injection Hf as <- _. right. eapply limit_step_throws_kind, Hl.
    + discriminate.
  - injection Hf as <- _.
    destruct (get_prop params "query"); simpl in Hs; try discriminate;
      injection Hs as <-; eauto.
  - discriminate.
Qed.

Lemma limit_step_off paginate query :
  is_nullish paginate = false →
  truthy (get_prop paginate "default") = false →
  limit_step paginate query = (Ok (), query).
Proof. intros Hn Hd. unfold limit_step, read_prop. rewrite Hn, Hd. reflexivity. Qed.

(** X16: Without a page size (a pagination config whose [default] is falsy, be
    it the service's or the one in the params), [find] on a query without
    [$select] resolves as soon as the statement compiles, and it resolves
    with the [results] argument of the store's callback as it is, whatever
    [err] says: after a failed query that is [undefined].  [$limit] is left
    as the caller wrote it. *)
Theorem find_unpaginated_resolves_with_results params (q : gmap string value)
  w str vals :
  get_prop params "query" = VObj q →
  is_nullish (paginate_of params) = false →
  truthy (get_prop (paginate_of params) "default") = false →
  truthy (get_prop (VObj q) "$select") = false →
  let q' := delete "$consistency" (<["_type" := VStr name]> q) in
  let n := _buildN1QL str (or_null (get_prop (VObj q) "$consistency")) true in
  interpret ext (opt_bucket (this_opts this)) (VObj q') = Ok (str, vals) →
  (find params w).1
  = (Resolved (bucket_query bucket n vals (store w)).1.1.2, VObj q') ∧
  q' !! "$limit" = q !! "$limit" ∧
  sent w (find params w).2 = [CQuery n vals].
Proof.
  intros Hq Hn Hd Hsel q' n Hi.
  assert (Hlim : q' !! "$limit" = q !! "$limit").
  { unfold q'. rewrite lookup_delete_ne, lookup_insert_ne by discriminate.
    reflexivity. }
  assert (Hsel' : truthy (get_prop (VObj q') "$select") = false).
  { unfold q', get_prop in *.
    rewrite lookup_delete_ne, lookup_insert_ne by discriminate. exact Hsel. }
  assert (Hcons : get_prop (VObj (<["_type" := VStr name]> q)) "$consistency"
                  = get_prop (VObj q) "$consistency").
  { unfold get_prop. rewrite lookup_insert_ne by discriminate. reflexivity. }
  assert (Hf : find params w
               = (Resolved (bucket_query bucket n vals (store w)).1.1.2, VObj q',
                  mkWorld (bucket_query bucket n vals (store w)).2 (drawn w)
                          (calls w ++ [CQuery n vals]))).
  { destruct (find params w) as [[o qf] w'] eqn:Hf.
    destruct (find_object params q w o qf w' Hq Hf)
      as [(e & query' & He & Hne & _)|(u & q1 & o1 & He & H_find & Hres)];
      rewrite (limit_step_off _ _ Hn Hd) in He.
    { injection He as <- _. exfalso. exact (Hne () eq_refl). }
    injection He as _ <-. rewrite Hcons in H_find. fold q' in H_find.
    unfold _find in H_find. rewrite Hi in H_find.
    unfold collect_selected, read_prop in H_find.
    change (is_nullish (VObj q')) with false in H_find.
    cbv iota in H_find. rewrite Hsel' in H_find.
    unfold call_query in H_find. run. fold n in H_find.
    destruct (bucket_query bucket n vals (store w)) as [[[err results] qd] s].
    simpl in *. unfold query_callback, read_prop in H_find. simpl in H_find.
    rewrite Hn, Hd in H_find. simpl in H_find.
    injection H_find as <- <- <-.
    assert (o = Resolved results) as -> by (apply Hres; reflexivity).
    reflexivity. }
  rewrite Hf. simpl. split; [reflexivity|]. split; [exact Hlim|].
  apply sent_app. reflexivity.
Qed.

(** X17: The envelope of a paginated [find]: when [find] resolves under a truthy
    page size, the result is an object of exactly four fields, [total] from
    the [metrics.resultCount] of the store's answer, [limit] and [skip] from
    the query ([skip] is 0 when the query has none), and [data] with the
    rows, stripped when fields are selected. *)
Theorem find_envelope params (q : gmap string value) w r qf w' :
  get_prop params "query" = VObj q →
  truthy (get_prop (paginate_of params) "default") = true →
  find params w = (Resolved r, qf, w') →
  ∃ n vals sel data,
    sent w w' = [CQuery n vals] ∧
    (if (0 <? length sel)%nat
     then _stripKeys sel (bucket_query bucket n vals (store w)).1.1.2
     else Ok (bucket_query bucket n vals (store w)).1.1.2) = Ok data ∧
    r = VObj {[ "total" :=
                  get_prop (get_prop (bucket_query bucket n vals (store w)).1.2
                                     "metrics") "resultCount";
                "limit" := get_prop qf "$limit";
                "skip" := if is_nullish (get_prop (VObj q) "$skip")
                          then VNum 0 else get_prop (VObj q) "$skip";
                "data" := data ]}.
Proof.
  intros Hq Hd Hf.
  destruct (find_path _ _ _ _ _ Hf)
    as [[_ Hno]|(q0 & q1 & u & str & vals & sel & Hq0 & He & _ & Hsel & Hs & _ & Ho)].
  { exfalso. exact (Hno r eq_refl). }
  rewrite Hq in Hq0. injection Hq0 as <-.
  assert (Hskip : get_prop qf "$skip" = get_prop (VObj q) "$skip").
  { destruct (collect_selected_object _ _ _ Hsel) as [(_ & _ & ->)|(_ & _ & ->)];
      unfold get_prop; rewrite ?(lookup_delete_ne _ "$select") by discriminate;
      rewrite lookup_delete_ne by discriminate;
      rewrite (limit_step_other _ _ _ _ _ He) by discriminate;
      rewrite lookup_insert_ne by discriminate; reflexivity. }
  set (n := _buildN1QL str (or_null (get_prop (VObj q1) "$consistency")) true) in *.
  exists n, vals, sel.
  unfold query_callback, read_prop in Ho.
  destruct (if (0 <? length sel)%nat then _ else _) as [data| |]; try discriminate.
  exists data. split; [exact Hs|]. split; [reflexivity|].
  destruct (is_nullish (paginate_of params)); [discriminate|].
  rewrite Hd in Ho. simpl in Ho. unfold envelope, read_prop in Ho.
  destruct (is_nullish (bucket_query bucket n vals (store w)).1.2);
    [discriminate|].
  destruct (is_nullish (get_prop _ "metrics")); [discriminate|].
  injection Ho as ->. rewrite Hskip. reflexivity.
Qed.

(** X18: A paginated [find] whose query fails never settles: when the store's
    callback comes without query meta data, building the envelope throws
    inside the callback, the promise is neither resolved nor rejected, and
    the store's error is lost. *)
Theorem find_paginated_hangs_on_failed_query params w n vals :
  truthy (get_prop (paginate_of params) "default") = true →
  sent w (find params w).2 = [CQuery n vals] →
  is_nullish (bucket_query bucket n vals (store w)).1.2 = true →
  (find params w).1.1 = Pending.
Proof.
  intros Hd Hsent Hqd.
  destruct (find params w) as [[o qf] w'] eqn:Hf. simpl in *.
  destruct (find_path _ _ _ _ _ Hf)
    as [[-> _]|(q0 & q1 & u & str & vals' & sel & _ & _ & _ & _ & Hs & _ & Ho)].
  { rewrite sent_refl in Hsent. discriminate. }
  rewrite Hs in Hsent. injection Hsent as <- <-.
  rewrite Ho. unfold query_callback, read_prop.
  destruct (if (0 <? length sel)%nat then _ else _) as [data| |] eqn:Hstrip.
  - destruct (is_nullish (paginate_of params)); [reflexivity|].
    rewrite Hd. simpl. unfold envelope, read_prop. rewrite Hqd. reflexivity.
  - reflexivity.
  - exfalso. destruct (0 <? length sel)%nat; [|discriminate].
    match type of Hstrip with
    | _stripKeys _ ?res = _ => destruct res; discriminate
    end.
Qed.

(** ** Further properties of [_stripKeys] *)

(** X19: [_stripKeys] fails exactly when the results are not an array.
    Otherwise it returns as many rows as it got, each an object; a selector
    that is not a string selects nothing; and stripping the returned rows
    again with the same selection gives them back unchanged. *)
Theorem _stripKeys_shape selected results :
  (∀ v, _stripKeys selected results = Ok v →
     ∃ rows rows',
       results = VArr rows ∧ v = VArr rows' ∧ length rows' = length rows ∧
       Forall (λ row, ∃ o : gmap string value,
                 row = VObj o ∧
                 ∀ k x, o !! k = Some x → VStr k ∈ selected) rows' ∧
       _stripKeys selected v = Ok v) ∧
  ((∃ e, _stripKeys selected results = Throws e)
   ↔ ∀ rows, results ≠ VArr rows) ∧
  _stripKeys selected results ≠ OutOfFragment.
Proof.
  assert (Hfound : ∀ k, index_of_found selected k → VStr k ∈ selected).
  { intros k. unfold index_of_found.
    induction selected as [|a l IH]; simpl; [tauto|].
    rewrite orb_True, elem_of_cons. intros [H|H]; [left|right; auto].
    destruct a; simpl in H; try (exfalso; exact H).
    apply Is_true_true, String.eqb_eq in H. congruence. }
  split; [|split].
  - intros v Hv. apply _stripKeys_ok in Hv as (rows & -> & ->).
    exists rows, (strip_row selected <$> rows).
    split; [reflexivity|]. split; [reflexivity|].
    split; [apply length_fmap|]. split.
    + apply Forall_fmap, Forall_forall. intros row _. simpl.
      eexists. split; [reflexivity|]. intros k x Hk.
      apply map_lookup_filter_Some in Hk as [_ Hk]. apply Hfound, Hk.
    + simpl. do 2 f_equal. rewrite <- list_fmap_compose.
      apply list_fmap_ext. intros _ row _. simpl. unfold strip_row.
      simpl. f_equal. apply map_eq. intros k.
      rewrite !map_lookup_filter.
      destruct (own_enumerable row !! k) as [x|]; simpl; [|reflexivity].
      destruct (decide (index_of_found selected k)) as [H|H].
      * rewrite !option_guard_True by exact H. simpl.
        rewrite option_guard_True by exact H. reflexivity.
      * rewrite !option_guard_False by exact H. reflexivity.
  - split.
    + intros [e He] rows ->. discriminate.
    + intros H. destruct results; simpl; eauto. exfalso. eapply H. reflexivity.
  - destruct results; discriminate.
Qed.

End Service.
(** A few runs on the in-memory client. *)

Example key_of_id :
  _key (Mem.users VUndefined) (VStr "42") = "users::42".
Proof. reflexivity. Qed.

Example key_of_nothing :
  _key (Mem.users VUndefined) VUndefined = "users::".
Proof. reflexivity. Qed.

Example get_missing :
  (get Mem.bucket Mem.externals (Mem.users VUndefined) (VStr "1") VUndefined
     (Mem.world ∅ [])).1
  = Rejected (NotFound "Does not exist").
Proof. reflexivity. Qed.

Example create_then_read :
  (create Mem.bucket Mem.externals (Mem.users VUndefined)
     (VObj {[ "foo" := VStr "bar" ]}) VUndefined (Mem.world ∅ [])).1
  = Resolved (VObj {[ "foo" := VStr "bar"; "uuid" := VStr "id-0";
                      "_type" := VStr "users" ]}).
Proof. vm_compute. reflexivity. Qed.

(** The rows of spec section 8.2: stored [{a:1}], [patch(id, {b:2})]. *)
Example patch_example :
  (patch Mem.bucket Mem.externals (Mem.users VUndefined)
     (VStr "7") (VObj {[ "b" := VNum 2 ]}) VUndefined
     (Mem.world {[ "users::7" := VObj {[ "a" := VNum 1 ]} ]} [])).1
  = Resolved (VObj {[ "a" := VNum 1; "b" := VNum 2; "_type" := VStr "users" ]}).
Proof. vm_compute. reflexivity. Qed.

Example find_paginated_example :
  (find Mem.bucket Mem.externals
     (Mem.users (VObj {[ "default" := VNum 10; "max" := VNum 50 ]}))
     (VObj {[ "query" := VObj {[ "foo" := VStr "bar"; "$limit" := VNum 10000 ]} ]})
     (Mem.world {[ "users::1" := VObj {[ "foo" := VStr "bar" ]} ]} [])).1
  = (Resolved (VObj {[ "total" := VNum 1; "limit" := VNum 50; "skip" := VNum 0;
                       "data" := VArr [VObj {[ "foo" := VStr "bar" ]}] ]}),
     VObj {[ "foo" := VStr "bar"; "$limit" := VNum 50; "_type" := VStr "users" ]}).
Proof. vm_compute. reflexivity. Qed.

Example find_select_example :
  (find Mem.bucket Mem.externals (Mem.users VUndefined)
     (VObj {[ "query" := VObj {[ "foo" := VStr "bar";
                                 "$select" := VArr [VStr "foo"] ]} ]})
     (Mem.world {[ "users::1" := VObj {[ "foo" := VStr "bar"; "bar" := VStr "foo" ]};
                   "users::2" := VObj {[ "foo" := VStr "bar"; "bar" := VStr "foo" ]} ]}
                [])).1.1
  = Resolved (VArr [VObj {[ "foo" := VStr "bar" ]}; VObj {[ "foo" := VStr "bar" ]}]).
Proof. vm_compute. reflexivity. Qed.

Example find_without_params :
  (find Mem.bucket Mem.externals (Mem.users VUndefined) VUndefined
     (Mem.world ∅ [])).1.1
  = Rejected (BadRequest "Null passed to find").
Proof. reflexivity. Qed.

Example find_without_query :
  (find Mem.bucket Mem.externals (Mem.users VUndefined) (VObj ∅)
     (Mem.world ∅ [])).1.1
  = Rejected (BadRequest "Null query object passed").
Proof. reflexivity. Qed.

(** ** Runs that settle the claims on concrete inputs *)

(** C1: [remove] of an existing entity does not resolve with the entity.
    The entity [alice] is stored at the key of id [1]; [get] reads it, and
    [remove] resolves with what the store's [remove] call returned, here
    [undefined]. *)
Theorem remove_does_not_return_entity :
  let w := Mem.world Sample.stored_alice [] in
  (get Mem.bucket Mem.externals Sample.plain (VStr "1") VUndefined w).1
  = Resolved (VObj Sample.alice) ∧
  (remove Mem.bucket Mem.externals Sample.plain (VStr "1") VUndefined w).1
  = Resolved VUndefined ∧
  Resolved VUndefined ≠ Resolved (VObj Sample.alice).
Proof. split; [|split]; [vm_compute; reflexivity..|discriminate]. Qed.

(** C2: an error of the store that is not a missing key is swallowed.
    [create] of an entity whose key is taken: the insert fails with the
    key-exists error, and [create] resolves with the entity that was there.
    [patch] over a connection that fails at the replace: [patch] resolves
    with the unchanged entity. *)
Theorem store_errors_are_swallowed :
  let w := Mem.world Sample.stored_alice [] in
  let data := VObj {[ "uuid" := VStr "1"; "foo" := VStr "new" ]} in
  (Mem.mem_insert "users::1"
     (VObj {[ "uuid" := VStr "1"; "foo" := VStr "new"; "_type" := VStr "users" ]})
     (store w)).1.1 = Mem.failure Mem.key_exists ∧
  (create Mem.bucket Mem.externals Sample.plain data VUndefined w).1
  = Resolved (VObj Sample.alice) ∧
  let w := Mem.world Sample.stored_alice [VNull; Sample.network_failure] in
  let data := VObj {[ "foo" := VStr "new" ]} in
  (Mem.mem_replace "users::1"
     (VObj {[ "uuid" := VStr "1"; "foo" := VStr "new"; "_type" := VStr "users" ]})
     (Mem.mk Sample.stored_alice [Sample.network_failure])).1.1
  = Sample.network_failure ∧
  sent w (patch Mem.bucket Mem.externals Sample.plain (VStr "1") data VUndefined w).2
  = [CGet "users::1";
     CReplace "users::1"
       (VObj {[ "uuid" := VStr "1"; "foo" := VStr "new"; "_type" := VStr "users" ]});
     CGet "users::1"] ∧
  (patch Mem.bucket Mem.externals Sample.plain (VStr "1") data VUndefined w).1
  = Resolved (VObj Sample.alice).
Proof. repeat split; vm_compute; reflexivity. Qed.

(** C3: when [patch] rejects, [update] does not.  Over a connection that
    fails at the third request, the second [get] of [patch] fails: [patch]
    rejects with the store's error, and [update] stays pending. *)
Theorem update_hangs_where_patch_rejects :
  let w := Mem.world Sample.stored_alice [VNull; VNull; Sample.network_failure] in
  let data := VObj {[ "foo" := VStr "new" ]} in
  (patch Mem.bucket Mem.externals Sample.plain (VStr "1") data VUndefined w).1
  = Rejected (Thrown Sample.network_failure) ∧
  (update Mem.bucket Mem.externals Sample.plain (VStr "1") data VUndefined w).1
  = Pending.
Proof. split; vm_compute; reflexivity. Qed.

(** C4 on the example of spec section 8.2: stored [{a:1}], payload [{b:2}]. *)
Lemma patch_merges_replaces_rereads_witness :
  let w := Mem.world Sample.stored_a1 [] in
  let data := VObj {[ "b" := VNum 2 ]} in
  (get Mem.bucket Mem.externals Sample.plain (VStr "7") VUndefined w).1
  = Resolved (VObj {[ "a" := VNum 1 ]}) ∧
  ∃ doc : gmap string value,
    (∀ k, doc !! k
          = if decide (k = "_type") then Some (VStr "users")
            else match own_enumerable data !! k with
                 | Some v => Some v
                 | None => ({[ "a" := VNum 1 ]} : gmap string value) !! k
                 end) ∧
    let w2 := (call_replace Mem.bucket "users::7" (VObj doc)
                 (get Mem.bucket Mem.externals Sample.plain (VStr "7") VUndefined w).2).2 in
    sent w w2 = [CGet "users::7"; CReplace "users::7" (VObj doc)] ∧
    patch Mem.bucket Mem.externals Sample.plain (VStr "7") data VUndefined w
    = get Mem.bucket Mem.externals Sample.plain (VStr "7") VUndefined w2 ∧
    sent w (patch Mem.bucket Mem.externals Sample.plain (VStr "7") data VUndefined w).2
    = [CGet "users::7"; CReplace "users::7" (VObj doc); CGet "users::7"].
Proof.
  split; [vm_compute; reflexivity|].
  apply (patch_merges_replaces_rereads Mem.bucket Mem.externals Sample.plain
           (VStr "7") (VObj {[ "b" := VNum 2 ]}) VUndefined
           (Mem.world Sample.stored_a1 []) {[ "a" := VNum 1 ]}).
  vm_compute; reflexivity.
Defined.

(** C9 fails for ids that differ and print alike: the stored entity has
    the number 1 as id, [remove] is called with the string ['1'], and the
    key removed is the key read. *)
Lemma remove_same_key_for_differing_id :
  let w := Mem.world Sample.stored_numbered [] in
  (get Mem.bucket Mem.externals Sample.plain (VStr "1") VUndefined w).1
  = Resolved (VObj Sample.numbered) ∧
  Sample.numbered !! this_id Sample.plain = Some (VNum 1) ∧
  VNum 1 ≠ VStr "1" ∧
  remove Mem.bucket Mem.externals Sample.plain (VStr "1") VUndefined w
  = (Resolved VUndefined,
     mkWorld (Mem.mk ∅ []) 0 [CGet "users::1"; CRemove "users::1"]).
Proof.
  split; [vm_compute; reflexivity|]. split; [vm_compute; reflexivity|].
  split; [discriminate|]. vm_compute; reflexivity.
Qed.

(** C9 on an entity filed under the key of another id: [remove("9")] reads
    the key of [9] and removes the key of the entity's own id, [1]; the
    document stays where it was.  And on an entity without id field:
    [remove("7")] draws the identifier [id-0] and removes its key. *)
Lemma remove_key_from_fetched_entity_witness :
  (let w := Mem.world Sample.misfiled_alice [] in
   let w' := mkWorld (Mem.mk Sample.misfiled_alice []) 0
               [CGet "users::9"; CRemove "users::1"] in
   remove Mem.bucket Mem.externals Sample.plain (VStr "9") VUndefined w
   = (Resolved VUndefined, w') ∧
   ∃ (data : gmap string value) (idv : value),
     (get Mem.bucket Mem.externals Sample.plain (VStr "9") VUndefined w).1
     = Resolved (VObj data) ∧
     sent w w' = [CGet "users::9"; CRemove (_key Sample.plain idv)] ∧
     match data !! "uuid" with
     | Some v => idv = v ∧ drawn w' = drawn w
     | None =>
         idv = VStr "id-0" ∧ drawn w' = S (drawn w) ∧
         (_id Mem.externals Sample.plain (VObj data)
            (get Mem.bucket Mem.externals Sample.plain (VStr "9") VUndefined w).2).1
         = Ok (idv, VObj (<["uuid" := idv]> data))
     end ∧
     (_key Sample.plain idv = "users::9" ↔ join_element idv = "9") ∧
     (join_element idv ≠ "9" → _key Sample.plain idv ≠ "users::9") ∧
     (∀ a b, idv = VStr a → VStr "9" = VStr b → a ≠ b →
             _key Sample.plain idv ≠ _key Sample.plain (VStr "9"))) ∧
  (let w := Mem.world Sample.stored_a1 [] in
   let w' := mkWorld (Mem.mk Sample.stored_a1 []) 1
               [CGet "users::7"; CRemove "users::id-0"] in
   remove Mem.bucket Mem.externals Sample.plain (VStr "7") VUndefined w
   = (Resolved VUndefined, w') ∧
   ∃ (data : gmap string value) (idv : value),
     (get Mem.bucket Mem.externals Sample.plain (VStr "7") VUndefined w).1
     = Resolved (VObj data) ∧
     sent w w' = [CGet "users::7"; CRemove (_key Sample.plain idv)] ∧
     match data !! "uuid" with
     | Some v => idv = v ∧ drawn w' = drawn w
     | None =>
         idv = VStr "id-0" ∧ drawn w' = S (drawn w) ∧
         (_id Mem.externals Sample.plain (VObj data)
            (get Mem.bucket Mem.externals Sample.plain (VStr "7") VUndefined w).2).1
         = Ok (idv, VObj (<["uuid" := idv]> data))
     end ∧
     (_key Sample.plain idv = "users::7" ↔ join_element idv = "7") ∧
     (join_element idv ≠ "7" → _key Sample.plain idv ≠ "users::7") ∧
     (∀ a b, idv = VStr a → VStr "7" = VStr b → a ≠ b →
             _key Sample.plain idv ≠ _key Sample.plain (VStr "7"))).
Proof.
  split; (split; [vm_compute; reflexivity|]).
  - apply (remove_key_from_fetched_entity Mem.bucket Mem.externals Sample.plain
             (VStr "9") VUndefined (Mem.world Sample.misfiled_alice [])
             VUndefined).
    vm_compute; reflexivity.
  - apply (remove_key_from_fetched_entity Mem.bucket Mem.externals Sample.plain
             (VStr "7") VUndefined (Mem.world Sample.stored_a1 [])
             VUndefined).
    vm_compute; reflexivity.
Defined.

(** C5 fails for a default of 0: the config [{default: 0, max: 50}] has its
    default set, yet [find] with [$limit: 10000] leaves the limit at 10000,
    outside the interval from 0 to 50, and resolves with the bare rows, not
    with an envelope. *)
Lemma find_zero_default_no_clamp :
  let w := Mem.world Sample.stored_a1 [] in
  let params := Sample.params_of Sample.query_limit_10000 in
  get_prop (paginate_of Sample.zero_default params) "default" = VNum 0 ∧
  get_prop (paginate_of Sample.zero_default params) "max" = VNum 50 ∧
  (find Mem.bucket Mem.externals Sample.zero_default params w).1
  = (Resolved (VArr [VObj {[ "a" := VNum 1 ]}]),
     VObj {[ "foo" := VStr "bar"; "$limit" := VNum 10000;
             "_type" := VStr "users" ]}) ∧
  effective_limit 0 50 (Some 10000%Z) = 50%Z.
Proof. repeat split; vm_compute; reflexivity. Qed.

(** C5 on the example of spec section 8.4: default 10, max 50, a requested
    limit of 10000.  The statement sent is compiled from the query with
    [$limit] 50, and the envelope reports the limit 50. *)
Lemma find_clamps_limit_witness :
  let w := Mem.world Sample.stored_a1 [] in
  let q' : gmap string value :=
    {[ "foo" := VStr "bar"; "$limit" := VNum 50; "_type" := VStr "users" ]} in
  effective_limit 10 50 (requested_limit Sample.query_limit_10000) = 50%Z ∧
  interpret Mem.externals "testbucket" (VObj q')
  = Ok (VStr "SELECT * FROM testbucket", VArr [VObj q']) ∧
  find Mem.bucket Mem.externals Sample.paged
    (Sample.params_of Sample.query_limit_10000) w
  = ((Resolved (VObj {[ "total" := VNum 1; "limit" := VNum 50; "skip" := VNum 0;
                        "data" := VArr [VObj {[ "a" := VNum 1 ]}] ]}),
      VObj q'),
     mkWorld (Mem.mk Sample.stored_a1 []) 0
       [CQuery (_buildN1QL Mem.externals (VStr "SELECT * FROM testbucket")
                  VNull true)
               (VArr [VObj q'])]).
Proof.
  split; [vm_compute; reflexivity|]. split; [vm_compute; reflexivity|].
  pose proof (find_clamps_limit Mem.bucket Mem.externals Sample.paged
                (Sample.params_of Sample.query_limit_10000)
                Sample.query_limit_10000 10 50 (Mem.world Sample.stored_a1 [])
                (VStr "SELECT * FROM testbucket")
                (VArr [VObj {[ "foo" := VStr "bar"; "$limit" := VNum 50;
                               "_type" := VStr "users" ]}])
                VNull (VArr [VObj {[ "a" := VNum 1 ]}])
                (VObj {[ "metrics" := VObj {[ "resultCount" := VNum 1 ]} ]})
                (Mem.mk Sample.stored_a1 [])
                (VArr [VObj {[ "a" := VNum 1 ]}])) as H.
  destruct H as [_ H].
  - vm_compute; reflexivity.
  - vm_compute; reflexivity.
  - lia.
  - vm_compute; reflexivity.
  - lia.
  - intros v Hv. vm_compute in Hv. injection Hv as <-. right. eauto.
  - intros v Hv. vm_compute in Hv. discriminate.
  - vm_compute; reflexivity.
  - vm_compute; reflexivity.
  - reflexivity.
  - reflexivity.
  - vm_compute; reflexivity.
  - cbv zeta. etransitivity; [exact H|]. vm_compute. reflexivity.
Defined.

(** C8 fails for an empty selection: with [$select: []] the rows come back
    whole, while the restriction of a row to no field is the empty object. *)
Lemma find_empty_select_keeps_rows :
  let w := Mem.world Sample.stored_foobar [] in
  (find Mem.bucket Mem.externals Sample.plain
     (Sample.params_of Sample.query_select_none) w).1.1
  = Resolved (VArr [VObj Sample.foobar; VObj Sample.foobar]) ∧
  restriction [] Sample.foobar = ∅ ∧
  VObj Sample.foobar ≠ VObj (restriction [] Sample.foobar).
Proof.
  split; [vm_compute; reflexivity|]. split; [vm_compute; reflexivity|].
  intros H. apply (f_equal (λ v, get_prop v "foo")) in H. vm_compute in H.
  discriminate.
Qed.

(** C8 on the example of spec section 8.5: rows [{foo:'bar', bar:'foo'}],
    [$select: ['foo']]. *)
Lemma find_select_restricts_witness :
  let w := Mem.world Sample.stored_foobar [] in
  let params := Sample.params_of Sample.query_select_foo in
  (find Mem.bucket Mem.externals Sample.plain params w).1.1
  = Resolved (VArr [VObj {[ "foo" := VStr "bar" ]}; VObj {[ "foo" := VStr "bar" ]}]) ∧
  ∃ n vals rows,
    sent w (find Mem.bucket Mem.externals Sample.plain params w).2 = [CQuery n vals] ∧
    (bucket_query Mem.bucket n vals (store w)).1.1.2 = VArr rows ∧
    returned_rows (paginate_of Sample.plain params)
      (VArr [VObj {[ "foo" := VStr "bar" ]}; VObj {[ "foo" := VStr "bar" ]}])
    = VArr ((λ row, VObj (restriction ["foo"] (own_enumerable row))) <$> rows) ∧
    ∀ (row : gmap string value) k,
      restriction ["foo"] row !! k = if decide (k ∈ ["foo"]) then row !! k else None.
Proof.
  split; [vm_compute; reflexivity|].
  apply (find_select_restricts Mem.bucket Mem.externals Sample.plain
           (Sample.params_of Sample.query_select_foo) Sample.query_select_foo
           ["foo"] (Mem.world Sample.stored_foobar [])
           (VArr [VObj {[ "foo" := VStr "bar" ]}; VObj {[ "foo" := VStr "bar" ]}])
           (VObj {[ "foo" := VStr "bar"; "_type" := VStr "users" ]})).
  - vm_compute; reflexivity.
  - vm_compute; reflexivity.
  - discriminate.
  - vm_compute; reflexivity.
Defined.

(** C10 fails for a query that is already in the shape [find] gives it: the
    caller's object after the call equals the one passed in. *)
Lemma find_leaves_normal_query :
  let w := Mem.world Sample.stored_a1 [] in
  (find Mem.bucket Mem.externals Sample.plain
     (Sample.params_of Sample.query_normal) w).1
  = (Resolved (VArr [VObj {[ "a" := VNum 1 ]}]), VObj Sample.query_normal).
Proof. vm_compute; reflexivity. Qed.

(** C10 on a query with [$consistency]. *)
Lemma find_mutates_query_witness :
  let w := Mem.world Sample.stored_a1 [] in
  let params := Sample.params_of Sample.query_consistent in
  (find Mem.bucket Mem.externals Sample.plain params w).1.2
  = VObj {[ "foo" := VStr "bar"; "_type" := VStr "users" ]} ∧
  ∃ q1 : gmap string value,
    ((truthy (get_prop (paginate_of Sample.plain params) "default") = false ∧
      q1 = <["_type" := VStr "users"]> Sample.query_consistent) ∨
     (truthy (get_prop (paginate_of Sample.plain params) "default") = true ∧
      ∃ l, R_clamp (VNum 0) (get_prop (paginate_of Sample.plain params) "max")
             (if is_nullish (get_prop (VObj Sample.query_consistent) "$limit")
              then get_prop (paginate_of Sample.plain params) "default"
              else get_prop (VObj Sample.query_consistent) "$limit") = Ok l ∧
           q1 = <["$limit" := l]> (<["_type" := VStr "users"]> Sample.query_consistent))) ∧
    VObj {[ "foo" := VStr "bar"; "_type" := VStr "users" ]}
    = VObj (if truthy (get_prop (VObj Sample.query_consistent) "$select")
            then delete "$select" (delete "$consistency" q1)
            else delete "$consistency" q1) ∧
    (VObj {[ "foo" := VStr "bar"; "_type" := VStr "users" ]}
     = VObj Sample.query_consistent ↔
       Sample.query_consistent !! "_type" = Some (VStr "users") ∧
       Sample.query_consistent !! "$consistency" = None ∧
       truthy (get_prop (VObj Sample.query_consistent) "$select") = false ∧
       q1 !! "$limit" = Sample.query_consistent !! "$limit").
Proof.
  split; [vm_compute; reflexivity|].
  apply (find_mutates_query Mem.bucket Mem.externals Sample.plain
           (Sample.params_of Sample.query_consistent) Sample.query_consistent
           (Mem.world Sample.stored_a1 [])
           (VArr [VObj {[ "a" := VNum 1 ]}])
           (VObj {[ "foo" := VStr "bar"; "_type" := VStr "users" ]})
           (mkWorld (Mem.mk Sample.stored_a1 []) 0
              [CQuery (_buildN1QL Mem.externals (VStr "SELECT * FROM testbucket")
                         (VNum 2) true)
                      (VArr [VObj {[ "foo" := VStr "bar"; "_type" := VStr "users" ]}])])).
  - vm_compute; reflexivity.
  - vm_compute; reflexivity.
Defined.

(** C7 on payloads that carry a [_type] of their own. *)
Lemma writes_force_type_witness :
  let w := Mem.world Sample.stored_alice [] in
  let data := VObj {[ "uuid" := VStr "2"; "_type" := VStr "admins" ]} in
  sent w (create Mem.bucket Mem.externals Sample.plain data VUndefined w).2
  = [CInsert "users::2" (VObj {[ "uuid" := VStr "2"; "_type" := VStr "users" ]});
     CGet "users::2"] ∧
  sent w (patch Mem.bucket Mem.externals Sample.plain (VStr "1") data VUndefined w).2
  = [CGet "users::1";
     CReplace "users::1"
       (VObj {[ "uuid" := VStr "2"; "foo" := VStr "bar"; "_type" := VStr "users" ]});
     CGet "users::1"] ∧
  Forall (stamps "users")
    (sent w (create Mem.bucket Mem.externals Sample.plain data VUndefined w).2) ∧
  Forall (stamps "users")
    (sent w (patch Mem.bucket Mem.externals Sample.plain (VStr "1") data VUndefined w).2) ∧
  Forall (stamps "users")
    (sent w (update Mem.bucket Mem.externals Sample.plain (VStr "1") data VUndefined w).2).
Proof.
  split; [vm_compute; reflexivity|]. split; [vm_compute; reflexivity|].
  pose proof (writes_force_type Mem.bucket Mem.externals Sample.plain (VStr "1")
                (VObj {[ "uuid" := VStr "2"; "_type" := VStr "admins" ]}) VUndefined
                (Mem.world Sample.stored_alice [])) as (Hc & Hp & Hu & _).
  exact (conj Hc (conj Hp Hu)).
Defined.

(** ** The constructor and the keys of two collections *)

(** X3: [new Service(opts)] checks its options in a fixed order.  Without an
    [opts] (or with a falsy one) and on an object without [bucket] it throws
    the bucket error; on an object it throws the connection error exactly
    when there is a bucket and no connection, and the name error exactly
    when only the name is missing; it throws nothing else on an object.  On
    a truthy primitive it throws a [TypeError]. *)
Theorem new_Service_validation couchbase opts :
  (truthy opts = false →
   new_Service couchbase opts = Throws (PlainError "Must pass bucket name")) ∧
  (truthy opts = true → is_primitive opts = true →
   ∃ msg, new_Service couchbase opts = Throws (TypeError msg)) ∧
  (∀ o : gmap string value, opts = VObj o →
     ∀ e, new_Service couchbase opts = Throws e ↔
       (is_nullish (get_prop opts "bucket") = true ∧
        e = PlainError "Must pass bucket name") ∨
       (is_nullish (get_prop opts "bucket") = false ∧
        is_nullish (get_prop opts "connection") = true ∧
        e = PlainError "Must pass bucket connection") ∨
       (is_nullish (get_prop opts "bucket") = false ∧
        is_nullish (get_prop opts "connection") = false ∧
        is_nullish (get_prop opts "name") = true ∧
        e = PlainError "Name of service must be specified")).
Proof.
  split; [|split].
  - intros Ht. unfold new_Service, js_or. rewrite Ht. reflexivity.
  - intros Ht Hp. unfold new_Service, js_or. rewrite Ht.
    destruct opts; try discriminate; simpl; eauto.
  - intros o -> e. unfold new_Service, js_or. simpl truthy. cbv iota.
    assert (Hrest : ∀ k, k ≠ "couchbase" →
              get_prop
                match (if is_nullish (get_prop (VObj o) "couchbase")
                       then set_prop (VObj o) "couchbase" couchbase
                       else Ok (VObj o)) with
                | Ok v => v
                | _ => VUndefined
                end k = get_prop (VObj o) k).
    { intros k Hk. destruct (is_nullish _); [|reflexivity].
      simpl. rewrite lookup_insert_ne by congruence. reflexivity. }
    pose proof (Hrest "bucket" ltac:(discriminate)) as Hb.
    pose proof (Hrest "connection" ltac:(discriminate)) as Hc.
    pose proof (Hrest "name" ltac:(discriminate)) as Hn.
    destruct (if is_nullish (get_prop (VObj o) "couchbase") then _ else _)
      as [o'| |] eqn:Ho;
      [|destruct (is_nullish (get_prop (VObj o) "couchbase")); discriminate..].
    rewrite Hb, Hc, Hn.
    destruct (is_nullish (get_prop (VObj o) "bucket"));
      [split; [intros [= <-]; auto|intros [[_ ->]|[(? & _)|(? & _)]]; done]|].
    destruct (is_nullish (get_prop (VObj o) "connection"));
      [split; [intros [= <-]; auto|intros [[? _]|[(_ & _ & ->)|(_ & ? & _)]]; done]|].
    destruct (is_nullish (get_prop (VObj o) "name"));
      [split; [intros [= <-]; auto 6|intros [[? _]|[(_ & ? & _)|(_ & _ & _ & ->)]]; done]|].
    split; [|intros [[? _]|[(_ & ? & _)|(_ & _ & ? & _)]]; done].
    destruct (get_prop (VObj o) "bucket"); try discriminate.
    destruct (get_prop (VObj o) "name"); try discriminate.
    destruct (string_option _); try discriminate.
    destruct (string_option _); discriminate.
Qed.

Lemma js_or_truthy a b : truthy b = true → truthy (js_or a b) = true.
Proof. intros H. unfold js_or. destruct (truthy a) eqn:Ha; assumption. Qed.

Lemma or_string_not_empty s d : d ≠ "" → or_string s d ≠ "".
Proof.
  intros Hd. destruct s as [x|]; simpl; [|exact Hd].
  destruct (String.eqb_spec x ""); assumption.
Qed.

Lemma string_option_ok v i :
  string_option v = Ok i →
  (truthy v = false ∧ i = None) ∨ (∃ x, v = VStr x ∧ x ≠ "" ∧ i = Some x).
Proof.
  unfold string_option. destruct (truthy v) eqn:Ht.
  - destruct v; try discriminate. intros [= <-]. right. eexists.
    split; [reflexivity|]. split; [|reflexivity].
    intros ->. discriminate.
  - intros [= <-]. left. auto.
Qed.

(** X4: A service that [new Service(opts)] builds has an id field name and a
    separator that are not empty, and a pagination config that is truthy:
    a missing or empty [id] becomes ['uuid'], a missing or empty [separator]
    becomes ['::'], a missing [paginate] becomes the empty object, and what
    is given otherwise is kept, as are the bucket and collection names. *)
Theorem new_Service_defaults couchbase opts s :
  new_Service couchbase opts = Ok s →
  this_id s ≠ "" ∧ this_separator s ≠ "" ∧ truthy (this_paginate s) = true ∧
  VStr (opt_bucket (this_opts s)) = get_prop opts "bucket" ∧
  VStr (opt_name (this_opts s)) = get_prop opts "name" ∧
  (truthy (get_prop opts "id") = false → this_id s = "uuid") ∧
  (truthy (get_prop opts "id") = true → VStr (this_id s) = get_prop opts "id") ∧
  (truthy (get_prop opts "separator") = false → this_separator s = "::") ∧
  (truthy (get_prop opts "separator") = true →
   VStr (this_separator s) = get_prop opts "separator") ∧
  this_paginate s = js_or (get_prop opts "paginate") (VObj ∅).
Proof.
  unfold new_Service, js_or.
  destruct opts as [| |b|z|x|xs|o];
    try (simpl; discriminate);
    try (destruct b; simpl; discriminate);
    try (destruct (truthy _); simpl; discriminate).
  simpl truthy. cbv iota.
  assert (Hrest : ∀ k, k ≠ "couchbase" →
            get_prop
              match (if is_nullish (get_prop (VObj o) "couchbase")
                     then set_prop (VObj o) "couchbase" couchbase
                     else Ok (VObj o)) with
              | Ok v => v
              | _ => VUndefined
              end k = get_prop (VObj o) k).
  { intros k Hk. destruct (is_nullish _); [|reflexivity].
    simpl. rewrite lookup_insert_ne by congruence. reflexivity. }
  pose proof (Hrest "bucket" ltac:(discriminate)) as Hb.
  pose proof (Hrest "connection" ltac:(discriminate)) as Hc.
  pose proof (Hrest "name" ltac:(discriminate)) as Hn.
  destruct (if is_nullish (get_prop (VObj o) "couchbase") then _ else _)
    as [o'| |] eqn:Ho; try discriminate.
  rewrite Hb, Hc, Hn.
  destruct (is_nullish (get_prop (VObj o) "bucket")); [discriminate|].
  destruct (is_nullish (get_prop (VObj o) "connection")); [discriminate|].
  destruct (is_nullish (get_prop (VObj o) "name")); [discriminate|].
  destruct (get_prop (VObj o) "bucket") as [| | | |bn| |]; try discriminate.
  destruct (get_prop (VObj o) "name") as [| | | |nm| |]; try discriminate.
  destruct (string_option (get_prop (VObj o) "id")) as [i| |] eqn:Hi;
    try discriminate.
  destruct (string_option (get_prop (VObj o) "separator")) as [sp| |] eqn:Hs;
    try discriminate.
  intros [= <-]. simpl.
  split; [apply or_string_not_empty; discriminate|].
  split; [apply or_string_not_empty; discriminate|].
  split; [apply js_or_truthy; reflexivity|].
  split; [reflexivity|]. split; [reflexivity|].
  apply string_option_ok in Hi, Hs. unfold get_prop in *.
  destruct Hi as [[Hi ->]|(x & Hx & Hxe & ->)];
    destruct Hs as [[Hs ->]|(y & Hy & Hye & ->)]; simpl;
    rewrite ?Hx, ?Hy, ?Hi, ?Hs; simpl;
    repeat split; try reflexivity; try discriminate;
    repeat match goal with
           | |- context [String.eqb ?a ""] => destruct (String.eqb_spec a "")
           end; try contradiction; try reflexivity; try (intros; discriminate);
    intros; try congruence.
Qed.

Lemma string_app_assoc (a b c : string) : (a +:+ b) +:+ c = a +:+ (b +:+ c).
Proof.
  induction a as [|x a IH]; [reflexivity|].
  change (String x ((a +:+ b) +:+ c) = String x (a +:+ (b +:+ c))).
  f_equal. exact IH.
Qed.

Lemma printed_name n : to_string (js_or (VStr n) (VStr "")) = n.
Proof.
  unfold js_or. simpl. destruct (String.eqb_spec n ""); simpl; congruence.
Qed.

(** X2: Keys do not keep collections apart.  For two services with the same
    separator, when the name of the second is the name of the first, the
    separator and some [b], the key of an id [c] in the second collection is
    the key of the id made of [b], the separator and [c] in the first. *)
Theorem _key_collides_across_collections (this1 this2 : Service) (b c : string) :
  this_separator this2 = this_separator this1 →
  name this2 = name this1 +:+ this_separator this1 +:+ b →
  _key this2 (VStr c) = _key this1 (VStr (b +:+ this_separator this1 +:+ c)).
Proof.
  intros Hsep Hname. rewrite !_key_eq, !printed_name, Hsep, Hname. simpl.
  rewrite !string_app_assoc. reflexivity.
Qed.

(** ** Runs of the further properties *)

Lemma _id_idempotent_witness :
  let w := Mem.world ∅ [] in
  let data' := VObj {[ "a" := VNum 1; "uuid" := VStr "id-0" ]} in
  let w' := mkWorld (Mem.mk ∅ []) 1 [] in
  _id Mem.externals Sample.plain (VObj {[ "a" := VNum 1 ]}) w
  = (Ok (VStr "id-0", data'), w') ∧
  _id Mem.externals Sample.plain data' w' = (Ok (VStr "id-0", data'), w') ∧
  get_prop data' "uuid" = VStr "id-0".
Proof.
  split; [vm_compute; reflexivity|].
  pose proof (_id_idempotent Mem.externals Sample.plain (VObj {[ "a" := VNum 1 ]})
                (Mem.world ∅ []) (VStr "id-0")
                (VObj {[ "a" := VNum 1; "uuid" := VStr "id-0" ]})
                (mkWorld (Mem.mk ∅ []) 1 [])) as H.
  destruct H as (H1 & H2 & _); [vm_compute; reflexivity|].
  exact (conj H1 H2).
Defined.

Lemma create_returns_inserted_witness :
  let w := Mem.world ∅ [] in
  let doc : gmap string value :=
    {[ "foo" := VStr "bar"; "_type" := VStr "users"; "uuid" := VStr "id-0" ]} in
  (create Mem.bucket Mem.externals Sample.plain
     (VObj {[ "foo" := VStr "bar"; "_type" := VStr "admins" ]}) VUndefined w).1
  = Resolved (VObj doc) ∧
  sent w (create Mem.bucket Mem.externals Sample.plain
            (VObj {[ "foo" := VStr "bar"; "_type" := VStr "admins" ]}) VUndefined w).2
  = [CInsert "users::id-0" (VObj doc); CGet "users::id-0"].
Proof.
  pose proof (create_returns_inserted Mem.bucket Mem.externals Sample.plain
                {[ "foo" := VStr "bar"; "_type" := VStr "admins" ]} VUndefined
                (Mem.world ∅ []) VNull
                (VObj {[ "cas" := VNum 1;
                         "value" := VObj {[ "foo" := VStr "bar";
                                            "_type" := VStr "users";
                                            "uuid" := VStr "id-0" ]} ]})) as H.
  destruct H as (H1 & H2 & _); [vm_compute; reflexivity..|].
  split; [exact H1|exact H2].
Defined.

Lemma patch_hangs_on_unreadable_id_witness :
  let w := Mem.world ∅ [] in
  patch Mem.bucket Mem.externals Sample.plain (VStr "1")
    (VObj {[ "foo" := VStr "new" ]}) VUndefined w
  = (Pending, mkWorld (Mem.mk ∅ []) 0 [CGet "users::1"]) ∧
  update Mem.bucket Mem.externals Sample.plain (VStr "1")
    (VObj {[ "foo" := VStr "new" ]}) VUndefined w
  = (Pending, mkWorld (Mem.mk ∅ []) 0 [CGet "users::1"]).
Proof.
  pose proof (patch_hangs_on_unreadable_id Mem.bucket Mem.externals Sample.plain
                (VStr "1") (VObj {[ "foo" := VStr "new" ]}) VUndefined
                (Mem.world ∅ []) (NotFound "Does not exist")) as H.
  destruct H as (H1 & H2 & _); [vm_compute; reflexivity|].
  split; [exact H1|exact H2].
Defined.

Lemma remove_rejects_on_unreadable_id_witness :
  let w := Mem.world ∅ [] in
  remove Mem.bucket Mem.externals Sample.plain (VStr "1") VUndefined w
  = (Rejected (NotFound "Does not exist"),
     mkWorld (Mem.mk ∅ []) 0 [CGet "users::1"]).
Proof.
  pose proof (remove_rejects_on_unreadable_id Mem.bucket Mem.externals Sample.plain
                (VStr "1") VUndefined (Mem.world ∅ [])
                (NotFound "Does not exist")) as H.
  destruct H as (H1 & _); [vm_compute; reflexivity|]. exact H1.
Defined.

Lemma find_compiles_prepared_query_witness :
  ∃ (q q' : gmap string value) str,
    get_prop (Sample.params_of Sample.query_full) "query" = VObj q ∧
    interpret Mem.externals "testbucket" (VObj q')
    = Ok (str, VArr [VObj {[ "foo" := VStr "bar"; "_type" := VStr "users";
                             "$select" := VArr [VStr "foo"];
                             "$skip" := VNum 5 ]}]) ∧
    q' !! "_type" = Some (VStr "users") ∧
    q' !! "$consistency" = None ∧
    (∀ k, k ≠ "_type" → k ≠ "$consistency" → k ≠ "$limit" → q' !! k = q !! k) ∧
    _buildN1QL Mem.externals (VStr "SELECT * FROM testbucket") (VNum 2) true
    = _buildN1QL Mem.externals str (or_null (get_prop (VObj q) "$consistency")) true.
Proof.
  apply (find_compiles_prepared_query Mem.bucket Mem.externals Sample.plain
           (Sample.params_of Sample.query_full) (Mem.world Sample.stored_foobar [])).
  vm_compute; reflexivity.
Defined.

Lemma find_forwards_consistency_witness :
  n1ql_consistency
    (_buildN1QL Mem.externals (VStr "SELECT * FROM testbucket") (VNum 2) true)
  = Some REQUEST_PLUS ∧
  (or_null (get_prop (VObj Sample.query_select_foo) "$consistency") = VNull ∧
   n1ql_consistency
     (_buildN1QL Mem.externals (VStr "SELECT * FROM testbucket") VNull true)
   = None).
Proof.
  split.
  - pose proof (find_forwards_consistency Mem.bucket Mem.externals Sample.plain
                  (Sample.params_of Sample.query_full) Sample.query_full
                  (Mem.world Sample.stored_foobar [])
                  (_buildN1QL Mem.externals (VStr "SELECT * FROM testbucket")
                     (VNum 2) true)
                  (VArr [VObj {[ "foo" := VStr "bar"; "_type" := VStr "users";
                                 "$select" := VArr [VStr "foo"];
                                 "$skip" := VNum 5 ]}])) as H.
    destruct H as (_ & H & _); [vm_compute; reflexivity..|].
    apply H. vm_compute; reflexivity.
  - pose proof (find_forwards_consistency Mem.bucket Mem.externals Sample.plain
                  (Sample.params_of Sample.query_select_foo) Sample.query_select_foo
                  (Mem.world Sample.stored_foobar [])
                  (_buildN1QL Mem.externals (VStr "SELECT * FROM testbucket")
                     VNull true)
                  (VArr [VObj {[ "foo" := VStr "bar"; "_type" := VStr "users";
                                 "$select" := VArr [VStr "foo"] ]}])) as H.
    destruct H as (_ & _ & _ & _ & H); [vm_compute; reflexivity..|].
    apply H; vm_compute; reflexivity.
Defined.

Lemma find_rejects_before_sending_witness :
  let w := Mem.world Sample.stored_a1 [] in
  let e := PlainError "min must not be greater than max in clamp(min, max, value)" in
  (find Mem.bucket Mem.externals Sample.bad_pages
     (Sample.params_of Sample.query_limit_10000) w).1.1 = Rejected e ∧
  ((∃ msg, e = BadRequest msg) ∨ (∃ msg, e = TypeError msg) ∨ e = e) ∧
  (find Mem.bucket Mem.externals Sample.bad_pages
     (Sample.params_of Sample.query_limit_10000) w).2 = w.
Proof.
  split; [vm_compute; reflexivity|].
  apply (find_rejects_before_sending Mem.bucket Mem.externals Sample.bad_pages
           (Sample.params_of Sample.query_limit_10000)
           (Mem.world Sample.stored_a1 [])).
  vm_compute; reflexivity.
Defined.

(** A failed query without pagination: [find] resolves with [undefined]. *)
Lemma find_unpaginated_resolves_with_results_witness :
  let w := Mem.world Sample.stored_a1 [Sample.network_failure] in
  (find Mem.bucket Mem.externals Sample.plain
     (Sample.params_of {[ "foo" := VStr "bar" ]}) w).1
  = (Resolved VUndefined, VObj {[ "foo" := VStr "bar"; "_type" := VStr "users" ]}).
Proof.
  pose proof (find_unpaginated_resolves_with_results Mem.bucket Mem.externals
                Sample.plain (Sample.params_of {[ "foo" := VStr "bar" ]})
                {[ "foo" := VStr "bar" ]}
                (Mem.world Sample.stored_a1 [Sample.network_failure])
                (VStr "SELECT * FROM testbucket")
                (VArr [VObj {[ "foo" := VStr "bar"; "_type" := VStr "users" ]}])) as H.
  destruct H as (H & _); [vm_compute; reflexivity..|].
  cbv zeta. etransitivity; [exact H|]. vm_compute. reflexivity.
Defined.

Lemma find_envelope_witness :
  let w := Mem.world Sample.stored_foobar [] in
  ∃ n vals sel data,
    sent w (find Mem.bucket Mem.externals Sample.paged
              (Sample.params_of Sample.query_full) w).2 = [CQuery n vals] ∧
    (if (0 <? length sel)%nat
     then _stripKeys sel (bucket_query Mem.bucket n vals (store w)).1.1.2
     else Ok (bucket_query Mem.bucket n vals (store w)).1.1.2) = Ok data ∧
    VObj {[ "total" := VNum 2; "limit" := VNum 10; "skip" := VNum 5;
            "data" := VArr [VObj {[ "foo" := VStr "bar" ]};
                            VObj {[ "foo" := VStr "bar" ]}] ]}
    = VObj {[ "total" :=
                get_prop (get_prop (bucket_query Mem.bucket n vals (store w)).1.2
                                   "metrics") "resultCount";
              "limit" :=
                get_prop (VObj {[ "foo" := VStr "bar"; "_type" := VStr "users";
                                  "$limit" := VNum 10; "$skip" := VNum 5 ]}) "$limit";
              "skip" := if is_nullish (get_prop (VObj Sample.query_full) "$skip")
                        then VNum 0 else get_prop (VObj Sample.query_full) "$skip";
              "data" := data ]}.
Proof.
  apply (find_envelope Mem.bucket Mem.externals Sample.paged
           (Sample.params_of Sample.query_full) Sample.query_full
           (Mem.world Sample.stored_foobar [])).
  - vm_compute; reflexivity.
  - vm_compute; reflexivity.
  - vm_compute; reflexivity.
Defined.

(** A failed query under pagination: [find] never settles. *)
Lemma find_paginated_hangs_on_failed_query_witness :
  let w := Mem.world Sample.stored_a1 [Sample.network_failure] in
  (find Mem.bucket Mem.externals Sample.paged
     (Sample.params_of {[ "foo" := VStr "bar" ]}) w).1.1 = Pending.
Proof.
  apply (find_paginated_hangs_on_failed_query Mem.bucket Mem.externals Sample.paged
           (Sample.params_of {[ "foo" := VStr "bar" ]})
           (Mem.world Sample.stored_a1 [Sample.network_failure])
           (_buildN1QL Mem.externals (VStr "SELECT * FROM testbucket") VNull true)
           (VArr [VObj {[ "foo" := VStr "bar"; "$limit" := VNum 10;
                          "_type" := VStr "users" ]}])).
  - vm_compute; reflexivity.
  - vm_compute; reflexivity.
  - vm_compute; reflexivity.
Defined.

Lemma new_Service_defaults_witness :
  new_Service (VObj ∅) Sample.raw_opts = Ok Sample.plain ∧
  this_separator Sample.plain = "::" ∧
  this_paginate Sample.plain = VObj ∅.
Proof.
  split; [vm_compute; reflexivity|].
  pose proof (new_Service_defaults (VObj ∅) Sample.raw_opts Sample.plain) as H.
  destruct H as (_ & _ & _ & _ & _ & _ & _ & Hsep & _ & Hp);
    [vm_compute; reflexivity|].
  split; [apply Hsep; reflexivity|]. exact Hp.
Defined.

Lemma _key_collides_across_collections_witness :
  _key Sample.vip (VStr "7") = _key Sample.plain (VStr "vip::7").
Proof.
  apply (_key_collides_across_collections Sample.plain Sample.vip "vip" "7");
    reflexivity.
Defined.
